(** * Cross-silo RPC of sentry: a shallow embedding of
    [sentry/services/hybrid_cloud/rpc.py] and its properties.

    Conventions of the embedding.
    - A Python [str] is a [string] holding the text in UTF-8, so that
      [s.encode("utf8")] is the list of its bytes; [startswith] and [split]
      on the ASCII separators the module uses act alike on code points and on
      UTF-8 code units.  [bytes] is [list byte].
    - A call that can raise returns a [result]: [Ok v] or [Raise e], where
      [e] records the exception class, its message and its [__cause__].
    - Calls that touch the process (service registry, HTTP transport) pass a
      [world] explicitly.
    - [hashlib.sha256] and [hmac.new] are the standard algorithms (FIPS 180-4,
      RFC 2104), written out so that tags can be computed. *)

From Stdlib Require Import ZArith Lia Bool.
From Stdlib Require Import Strings.Byte Strings.Ascii Strings.String.
From stdpp Require Import base decidable option list strings gmap.

Local Open Scope Z_scope.
Set Warnings "-register-all".

(** ** Exceptions and results *)

Inductive exc_class :=
  | RpcServiceSetupException
  | RpcServiceUnimplementedException
  | RpcResolutionException
  | RpcArgumentException
  | RpcRemoteException
  | RpcResponseException
  | RpcAuthenticationSetupException
  | RegionMappingNotFound
  | ValidationError
  | ConfigError
  | ValueError
  | KeyError
  | TypeError
  | AttributeError
  | JSONDecodeError.

Inductive exception :=
  | Exc (cls : exc_class) (message : string) (cause : option exception).

Definition exc_cls (e : exception) : exc_class :=
  match e with Exc c _ _ => c end.

Definition exc_cause (e : exception) : option exception :=
  match e with Exc _ _ c => c end.

Inductive result (A : Type) :=
  | Ok (a : A)
  | Raise (e : exception).
Arguments Ok {A} a.
Arguments Raise {A} e.

Definition rbind {A B} (r : result A) (k : A -> result B) : result B :=
  match r with
  | Ok a => k a
  | Raise e => Raise e
  end.

Declare Scope result_scope.
Delimit Scope result_scope with result.
Notation "'let?' x ':=' r 'in' k" := (rbind r (fun x => k))
  (at level 10, x pattern, r at level 100, k at level 200) : result_scope.
Local Open Scope result_scope.

#[global] Instance exc_class_eq_dec : EqDecision exc_class.
Proof. solve_decision. Defined.

#[global] Instance byte_eq_dec : EqDecision byte.
Proof. intros a b. exact (Byte.byte_eq_dec a b). Defined.

(** ** Python string primitives used by the module *)

Module Py.

(** [s.encode("utf8")] *)
Definition encode (s : string) : list byte := String.list_byte_of_string s.

(** [s.startswith(p)] *)
Fixpoint startswith (p s : string) : bool :=
  match p, s with
  | EmptyString, _ => true
  | String a p', String b s' => Ascii.eqb a b && startswith p' s'
  | String _ _, EmptyString => false
  end.

(** The text before and after the first [sep] of [s], if there is one. *)
Fixpoint cut (sep : ascii) (s : string) : option (string * string) :=
  match s with
  | EmptyString => None
  | String c s' =>
      if Ascii.eqb c sep then Some (EmptyString, s')
      else match cut sep s' with
           | Some (before, after) => Some (String c before, after)
           | None => None
           end
  end.

(** [s.split(sep, maxsplit)] for a one-character separator: at most
    [maxsplit] cuts, from the left; the rest is the last item. *)
Fixpoint split (sep : ascii) (maxsplit : nat) (s : string) : list string :=
  match maxsplit with
  | O => [s]
  | S m =>
      match cut sep s with
      | Some (before, after) => before :: split sep m after
      | None => [s]
      end
  end.

(** [str(n)] for an [int] *)
Definition str_int (n : Z) : string :=
  let digits :=
    (fix digits (fuel : nat) (n : Z) : list ascii :=
       match fuel with
       | O => []
       | S f =>
           let d := Ascii.ascii_of_N (48 + Z.to_N (n mod 10)) in
           if n <? 10 then [d] else digits f (n / 10) ++ [d]
       end) (S (Z.to_nat (Z.log2 (Z.abs n)))) (Z.abs n) in
  String.string_of_list_ascii (if n <? 0 then "-"%char :: digits else digits).

(** [hmac.compare_digest(a, b)] on bytes; the timing is not modelled. *)
Definition compare_digest (a b : list byte) : bool := bool_decide (a = b).

End Py.

(** ** [hashlib.sha256] and [hmac.new(key, msg, hashlib.sha256)] *)

Module Sha256.

Definition mask32 : Z := 2 ^ 32 - 1.
Definition wrap (x : Z) : Z := Z.land x mask32.
Definition add32 (x y : Z) : Z := wrap (x + y).
Definition rotr (n x : Z) : Z :=
  Z.lor (Z.shiftr x n) (wrap (Z.shiftl x (32 - n))).

Definition ch (x y z : Z) : Z :=
  Z.lxor (Z.land x y) (Z.land (Z.lxor x mask32) z).
Definition maj (x y z : Z) : Z :=
  Z.lxor (Z.lxor (Z.land x y) (Z.land x z)) (Z.land y z).
Definition bsig0 (x : Z) : Z := Z.lxor (Z.lxor (rotr 2 x) (rotr 13 x)) (rotr 22 x).
Definition bsig1 (x : Z) : Z := Z.lxor (Z.lxor (rotr 6 x) (rotr 11 x)) (rotr 25 x).
Definition ssig0 (x : Z) : Z := Z.lxor (Z.lxor (rotr 7 x) (rotr 18 x)) (Z.shiftr x 3).
Definition ssig1 (x : Z) : Z := Z.lxor (Z.lxor (rotr 17 x) (rotr 19 x)) (Z.shiftr x 10).

(** The round constants are the first 32 fractional bits of the cube roots
    of the first 64 primes, the initial state those of the square roots of
    the first 8. *)
Definition is_prime (n : nat) : bool :=
  forallb (fun d => negb (Nat.eqb (n mod d) 0)) (seq 2 (n - 2)).
Definition primes : list Z :=
  Eval vm_compute in map Z.of_nat (filter (fun n => is_prime n) (seq 2 310)).

Definition cbrt (n : Z) : Z :=
  fold_left
    (fun r b => let r' := r + 2 ^ Z.of_nat b in
                if r' * r' * r' <=? n then r' else r)
    (rev (seq 0 40)) 0.

Definition round_constants : list Z :=
  Eval vm_compute in map (fun p => wrap (cbrt (p * 2 ^ 96))) primes.
Definition initial_state : list Z :=
  Eval vm_compute in map (fun p => wrap (Z.sqrt (p * 2 ^ 64))) (take 8 primes).

Definition byte_to_Z (b : byte) : Z := Z.of_N (Byte.to_N b).
Definition byte_of_Z (z : Z) : byte :=
  default Byte.x00 (Byte.of_N (Z.to_N (Z.land z 255))).

(** Big-endian bytes of the low [8 * n] bits of [z]. *)
Fixpoint be_bytes (n : nat) (z : Z) : list byte :=
  match n with
  | O => []
  | S m => byte_of_Z (Z.shiftr z (8 * Z.of_nat m)) :: be_bytes m z
  end.

Definition be_word (bs : list byte) : Z :=
  fold_left (fun acc b => acc * 256 + byte_to_Z b) bs 0.

Definition pad (msg : list byte) : list byte :=
  let len := Z.of_nat (length msg) in
  let zeros := Z.to_nat ((55 - len) mod 64) in
  msg ++ Byte.x80 :: replicate zeros Byte.x00 ++ be_bytes 8 (8 * len).

Fixpoint chunks {A} (fuel size : nat) (l : list A) : list (list A) :=
  match fuel, l with
  | O, _ | _, [] => []
  | S f, _ => take size l :: chunks f size (drop size l)
  end.

Definition nthZ (l : list Z) (i : nat) : Z := nth i l 0.

(** The 64-word message schedule of one block, kept newest first. *)
Definition schedule (block : list byte) : list Z :=
  let w0 := map be_word (chunks 16 4 block) in
  rev (fold_left
         (fun ws _ =>
            add32 (add32 (ssig1 (nthZ ws 1)) (nthZ ws 6))
                  (add32 (ssig0 (nthZ ws 14)) (nthZ ws 15)) :: ws)
         (seq 16 48) (rev w0)).

Record regs := Regs { ra : Z; rb : Z; rc : Z; rd : Z; re : Z; rf : Z; rg : Z; rh : Z }.

Definition round (s : regs) (kw : Z * Z) : regs :=
  let t1 := add32 (add32 (add32 (rh s) (bsig1 (re s)))
                         (add32 (ch (re s) (rf s) (rg s)) (fst kw))) (snd kw) in
  let t2 := add32 (bsig0 (ra s)) (maj (ra s) (rb s) (rc s)) in
  Regs (add32 t1 t2) (ra s) (rb s) (rc s) (add32 (rd s) t1) (re s) (rf s) (rg s).

Definition compress (h : regs) (block : list byte) : regs :=
  let s := fold_left round (zip round_constants (schedule block)) h in
  Regs (add32 (ra h) (ra s)) (add32 (rb h) (rb s)) (add32 (rc h) (rc s))
       (add32 (rd h) (rd s)) (add32 (re h) (re s)) (add32 (rf h) (rf s))
       (add32 (rg h) (rg s)) (add32 (rh h) (rh s)).

Definition init : regs :=
  let i := nthZ initial_state in
  Regs (i 0%nat) (i 1%nat) (i 2%nat) (i 3%nat) (i 4%nat) (i 5%nat) (i 6%nat) (i 7%nat).

(** [hashlib.sha256(msg).digest()] *)
Definition digest (msg : list byte) : list byte :=
  let p := pad msg in
  let s := fold_left compress (chunks (length p) 64 p) init in
  flat_map (be_bytes 4) [ra s; rb s; rc s; rd s; re s; rf s; rg s; rh s].

End Sha256.

Module Hmac.

Definition block_size : nat := 64.

Definition xor_with (c : Z) (bs : list byte) : list byte :=
  map (fun b => Sha256.byte_of_Z (Z.lxor (Sha256.byte_to_Z b) c)) bs.

(** [hmac.new(key, msg, hashlib.sha256).digest()] *)
Definition digest (key msg : list byte) : list byte :=
  let key := if (block_size <? length key)%nat then Sha256.digest key else key in
  let key := key ++ replicate (block_size - length key) Byte.x00 in
  Sha256.digest (xor_with 0x5c key ++ Sha256.digest (xor_with 0x36 key ++ msg)).

Definition hex_digit (n : Z) : ascii :=
  nth (Z.to_nat n)
      ["0"; "1"; "2"; "3"; "4"; "5"; "6"; "7"; "8"; "9";
       "a"; "b"; "c"; "d"; "e"; "f"]%char "0"%char.

(** [bytes.hex()]: two lowercase digits per byte. *)
Fixpoint hex (bs : list byte) : string :=
  match bs with
  | [] => EmptyString
  | b :: bs' =>
      let z := Sha256.byte_to_Z b in
      String (hex_digit (Z.shiftr z 4)) (String (hex_digit (Z.land z 15)) (hex bs'))
  end.

(** [hmac.new(key, msg, hashlib.sha256).hexdigest()] *)
Definition hexdigest (key msg : list byte) : string := hex (digest key msg).

End Hmac.

(** ** Request authentication: [compare_signature], [generate_request_signature] *)

(** The part of [django.conf.settings] the module reads.  An unset
    ([None]) [RPC_SHARED_SECRET] and an empty one are both falsy and are
    both the empty list here; likewise the empty [SENTRY_CONTROL_ADDRESS]. *)
Record Settings := {
  RPC_SHARED_SECRET : list string;
  SENTRY_CONTROL_ADDRESS : string;
}.

(** [b"%s:%s" % (url.encode("utf8"), body)] *)
Definition signature_input (url : string) (body : list byte) : list byte :=
  Py.encode url ++ Py.encode ":" ++ body.

(** The [for key in settings.RPC_SHARED_SECRET] loop of [compare_signature]. *)
Fixpoint compare_signature_keys (keys : list string) (input : list byte)
    (signature_data : string) : bool :=
  match keys with
  | [] => false
  | key :: keys' =>
      let computed := Hmac.hexdigest (Py.encode key) input in
      let is_valid := Py.compare_digest (Py.encode computed) (Py.encode signature_data) in
      if is_valid then true else compare_signature_keys keys' input signature_data
  end.

Definition compare_signature (settings : Settings) (url : string)
    (body : list byte) (signature : string) : result bool :=
  match RPC_SHARED_SECRET settings with
  | [] =>
      Raise (Exc RpcAuthenticationSetupException
               "Cannot validate RPC request signatures without RPC_SHARED_SECRET" None)
  | _ :: _ =>
      if negb (Py.startswith "rpc0:" signature) then Ok false
      else
        (* _, signature_data = signature.split(":", 2) *)
        match Py.split ":" 2 signature with
        | [_; signature_data] =>
            Ok (compare_signature_keys (RPC_SHARED_SECRET settings)
                  (signature_input url body) signature_data)
        | _ :: _ :: _ :: _ =>
            Raise (Exc ValueError "too many values to unpack (expected 2)" None)
        | _ =>
            Raise (Exc ValueError "not enough values to unpack (expected 2)" None)
        end
  end.

Definition generate_request_signature (settings : Settings) (url_path : string)
    (body : list byte) : result string :=
  match RPC_SHARED_SECRET settings with
  | [] =>
      Raise (Exc RpcAuthenticationSetupException
               "Cannot sign RPC requests without RPC_SHARED_SECRET" None)
  | secret :: _ =>
      let signature := Hmac.hexdigest (Py.encode secret) (signature_input url_path body) in
      Ok ("rpc0:" +:+ signature)
  end.

(** The tag the spec writes ["rpc0:" + hex(HMAC-SHA256(s, path + ":" + body))]. *)
Definition rpc0_tag (secret url : string) (body : list byte) : string :=
  "rpc0:" +:+ Hmac.hex (Hmac.digest (Py.encode secret) (signature_input url body)).

Definition with_secrets (secrets : list string) : Settings :=
  {| RPC_SHARED_SECRET := secrets; SENTRY_CONTROL_ADDRESS := "" |}.

(** The body [{"args":{}}] of the spec's signing scenario. *)
Definition scenario_body : list byte :=
  let quote := Ascii.ascii_of_nat 34 in
  Py.encode (String "{" (String quote "args" +:+ String quote ":{}}")).

(** ** Data model of the dispatch layer *)

(** Modelled from the spec: the enumeration [sentry.silo.SiloMode] is not
    part of the module; the module names its members [MONOLITH], [CONTROL]
    and [REGION], the all-in-one mode and the two silo kinds of the spec. *)
Inductive SiloMode := MONOLITH | CONTROL | REGION.

#[global] Instance SiloMode_eq_dec : EqDecision SiloMode.
Proof. solve_decision. Defined.

(** [for mode in SiloMode] *)
Definition all_silo_modes : list SiloMode := [MONOLITH; CONTROL; REGION].

(** Modelled from the spec: [sentry.types.region.Region], a shard with a
    unique [name] and an [address] (empty when not configured). *)
Record Region := {
  region_name : string;
  region_address : string;
}.

(** Python values that travel as arguments, return values and JSON.  A
    [VModel] is an instance of an [RpcModel] class with its fields in
    declaration order; a [VDict] is a [dict] with [str] keys in insertion
    order; a [VFloat] is kept by its IEEE-754 bits. *)
Inductive value :=
  | VNone
  | VBool (b : bool)
  | VInt (n : Z)
  | VFloat (bits : Z)
  | VStr (s : string)
  | VList (items : list value)
  | VDict (entries : list (string * value))
  | VModel (cls : string) (fields : list (string * value)).

(** [ArgumentDict]: keyword arguments by name. *)
Definition ArgumentDict := list (string * value).

(** [d.get(k)] / [d[k]]: the first entry of the key. *)
Fixpoint dict_get (k : string) (d : list (string * value)) : option value :=
  match d with
  | [] => None
  | (k', v) :: d' => if String.eqb k' k then Some v else dict_get k d'
  end.

(** [type(value)] as [f"{type(value)}"] prints it. *)
Definition type_repr (v : value) : string :=
  match v with
  | VNone => "<class 'NoneType'>"
  | VBool _ => "<class 'bool'>"
  | VInt _ => "<class 'int'>"
  | VFloat _ => "<class 'float'>"
  | VStr _ => "<class 'str'>"
  | VList _ => "<class 'list'>"
  | VDict _ => "<class 'dict'>"
  | VModel cls _ => "<class '" +:+ cls +:+ "'>"
  end.

(** Type tokens as they appear in annotations.  [TForwardRef] is a string
    nested in a type parameter ([Optional["RpcThing"]]); [TOther] is any
    token outside this fragment. *)
Inductive type_token :=
  | TNone
  | TBool
  | TInt
  | TFloat
  | TStr
  | TOptional (t : type_token)
  | TList (t : type_token)
  | TModel (cls : string) (fields : list (string * type_token))
  | TForwardRef (name : string)
  | TOther (name : string).

(** What [inspect.signature] reports as an annotation: nothing
    ([inspect.Parameter.empty]), the value [None], a string, or a type token. *)
Inductive annotation :=
  | AnnEmpty
  | AnnNone
  | AnnStr (s : string)
  | AnnType (t : type_token).

(** [inspect.Parameter]: [param_default = None] is [param.empty]. *)
Record InspectParameter := {
  param_name : string;
  param_annotation : annotation;
  param_default : option value;
}.

(** A [RegionResolutionStrategy]: [resolve(arguments)] returns a region
    (or whatever the strategy returns, [None] included) or raises. *)
Record RegionResolutionStrategy := {
  resolve : ArgumentDict -> result (option Region);
}.

(** ** The calls into [pydantic]

    The module builds one model class per method from the annotations
    ([pydantic.create_model]) and uses three operations on it:
    the constructor [Model] applied to keyword arguments,
    [Model.parse_obj(obj)] and [instance.dict()].  The
    library decides by the declared type; what it does with a value that is
    not of the declared type (it may convert it or refuse it) and which
    declarations it refuses are left to the two fields of [Pydantic]. *)

Record FieldDef := {
  field_name : string;
  field_type : type_token;
  field_default : option value;   (* [None] here is the required marker [...] *)
}.

Record ModelClass := {
  model_name : string;
  model_fields : list FieldDef;
}.

Class Pydantic := {
  coerce : type_token -> value -> result value;
  create_model_error : string -> list FieldDef -> option exception;
}.

Definition RpcException (cls : exc_class) (service_name : string)
    (method_name : option string) (message : string) (cause : option exception)
  : exception :=
  let name :=
    match method_name with
    | Some m => if String.eqb m "" then service_name else service_name +:+ "." +:+ m
    | None => service_name
    end in
  Exc cls (name +:+ ": " +:+ message) cause.

Definition none_not_allowed : exception :=
  Exc ValidationError "none is not an allowed value" None.
Definition field_required : exception :=
  Exc ValidationError "field required" None.
Definition forward_ref_not_prepared : exception :=
  Exc ConfigError "field not yet prepared so type is still a ForwardRef" None.

Definition is_validation_error (e : exception) : bool :=
  bool_decide (exc_cls e = ValidationError).

(** Validation of several items goes through all of them: validation
    errors are collected into one [ValidationError], any other exception
    leaves at once. *)
Fixpoint gather {A} (rs : list (result A)) : result (list A) :=
  match rs with
  | [] => Ok []
  | Ok a :: rs' => let? l := gather rs' in Ok (a :: l)
  | Raise e :: rs' =>
      if is_validation_error e then
        match gather rs' with
        | Raise e' => if is_validation_error e' then Raise e else Raise e'
        | Ok _ => Raise e
        end
      else Raise e
  end.

Section PydanticCalls.

Context `{Pydantic}.

(** [pydantic.create_model] of a name and field definitions *)
Definition create_model (name : string) (fields : list FieldDef) : result ModelClass :=
  match create_model_error name fields with
  | Some e => Raise e
  | None => Ok {| model_name := name; model_fields := fields |}
  end.

(** Validation of one value against a type token. *)
Fixpoint validate (t : type_token) (v : value) {struct t} : result value :=
  match t with
  | TForwardRef _ => Raise forward_ref_not_prepared
  | TNone =>
      match v with
      | VNone => Ok VNone
      | _ => coerce t v
      end
  | TBool =>
      match v with
      | VBool _ => Ok v
      | VNone => Raise none_not_allowed
      | _ => coerce t v
      end
  | TInt =>
      match v with
      | VInt _ => Ok v
      | VNone => Raise none_not_allowed
      | _ => coerce t v
      end
  | TFloat =>
      match v with
      | VFloat _ => Ok v
      | VNone => Raise none_not_allowed
      | _ => coerce t v
      end
  | TStr =>
      match v with
      | VStr _ => Ok v
      | VNone => Raise none_not_allowed
      | _ => coerce t v
      end
  | TOptional t' =>
      match v with
      | VNone => Ok VNone
      | _ => validate t' v
      end
  | TList t' =>
      match v with
      | VList items =>
          let? items' := gather (map (validate t') items) in Ok (VList items')
      | VNone => Raise none_not_allowed
      | _ => coerce t v
      end
  | TModel cls fields =>
      match v with
      | VModel cls' _ => if String.eqb cls' cls then Ok v else coerce t v
      | VDict entries =>
          let? values :=
            gather
              ((fix each (fields : list (string * type_token)) : list (result value) :=
                  match fields with
                  | [] => []
                  | (k, ft) :: fields' =>
                      match dict_get k entries with
                      | Some x => validate ft x
                      | None => Raise field_required
                      end :: each fields'
                  end) fields) in
          Ok (VModel cls (zip (map fst fields) values))
      | VNone => Raise none_not_allowed
      | _ => coerce t v
      end
  | TOther _ => coerce t v
  end.

(** A field whose default is [None] accepts [None]. *)
Definition field_allow_none (f : FieldDef) : bool :=
  match field_default f with
  | Some VNone => true
  | _ => false
  end.

Definition validate_field (input : list (string * value)) (f : FieldDef) : result value :=
  match dict_get (field_name f) input with
  | None =>
      match field_default f with
      | Some d => Ok d
      | None => Raise field_required
      end
  | Some VNone => if field_allow_none f then Ok VNone else validate (field_type f) VNone
  | Some v => validate (field_type f) v
  end.

(** [Model] applied to the keywords [input], and [Model.parse_obj(input)]
    for a [dict]: the
    instance holds every declared field, in declaration order; names of
    [input] that are not fields are ignored. *)
Definition model_validate (m : ModelClass) (input : list (string * value)) : result value :=
  let? values := gather (map (validate_field input) (model_fields m)) in
  Ok (VModel (model_name m) (zip (map field_name (model_fields m)) values)).

(** The value [instance.dict()] puts in place of [v]: model instances
    become dicts, at any depth. *)
Fixpoint to_dict (v : value) : value :=
  match v with
  | VList items => VList (map to_dict items)
  | VDict entries => VDict (map (fun kv => (fst kv, to_dict (snd kv))) entries)
  | VModel _ fields => VDict (map (fun kv => (fst kv, to_dict (snd kv))) fields)
  | _ => v
  end.

(** [instance.__dict__] *)
Definition dunder_dict (instance : value) : list (string * value) :=
  match instance with
  | VModel _ fields => fields
  | _ => []
  end.

(** [instance.dict()] *)
Definition model_dict (instance : value) : list (string * value) :=
  map (fun kv => (fst kv, to_dict (snd kv))) (dunder_dict instance).

End PydanticCalls.

(** *** Arguments that satisfy a schema *)

(** [check_type t v]: the value [v] is of the declared type [t].  An
    instance of a model class holds exactly the declared fields, in
    declaration order, each of its declared type. *)
Fixpoint check_type (t : type_token) (v : value) {struct t} : bool :=
  match t, v with
  | TNone, VNone => true
  | TBool, VBool _ => true
  | TInt, VInt _ => true
  | TFloat, VFloat _ => true
  | TStr, VStr _ => true
  | TOptional _, VNone => true
  | TOptional t', _ => check_type t' v
  | TList t', VList items => forallb (check_type t') items
  | TModel cls fields, VModel cls' values =>
      String.eqb cls' cls
      && bool_decide (NoDup (map fst fields))
      && (fix each (fields : list (string * type_token)) (values : list (string * value))
            : bool :=
            match fields, values with
            | [], [] => true
            | (k, ft) :: fields', (k', x) :: values' =>
                String.eqb k' k && check_type ft x && each fields' values'
            | _, _ => false
            end) fields values
  | _, _ => false
  end.

Definition is_none (v : value) : bool :=
  match v with
  | VNone => true
  | _ => false
  end.

(** A value acceptable for a field: of the declared type, or [None] for a
    field whose default is [None]. *)
Definition check_field (f : FieldDef) (v : value) : bool :=
  check_type (field_type f) v
  || (is_none v && match field_default f with Some VNone => true | _ => false end).

(** The parameter names of a schema are distinct. *)
Definition check_schema (m : ModelClass) : bool :=
  bool_decide (NoDup (map field_name (model_fields m))).

(** What the schema asks of [args] for the field [f]: an acceptable
    value or, when the field is omitted, an acceptable default. *)
Definition field_satisfied (args : ArgumentDict) (f : FieldDef) : bool :=
  match dict_get (field_name f) args with
  | Some v => check_field f v
  | None =>
      match field_default f with
      | Some d => check_field f d
      | None => false
      end
  end.

(** The arguments [args] satisfy the schema [m]: every parameter is
    satisfied and every name of [args] is a parameter. *)
Definition check_arguments (m : ModelClass) (args : ArgumentDict) : bool :=
  forallb (field_satisfied args) (model_fields m)
  && forallb
       (fun kv => existsb (fun f => String.eqb (field_name f) (fst kv)) (model_fields m))
       args.

(** The argument given for a field, or the field's default. *)
Definition argument_or_default (args : ArgumentDict) (f : FieldDef) : value :=
  match dict_get (field_name f) args with
  | Some v => v
  | None => default VNone (field_default f)
  end.

(** [args] completed with the defaults of the omitted parameters, in
    declaration order. *)
Definition complete_with_defaults (fields : list FieldDef) (args : ArgumentDict)
  : list (string * value) :=
  map (fun f => (field_name f, argument_or_default args f)) fields.

(** [d1 == d2] on dicts: the same keys with equal values. *)
Definition dict_eq (d1 d2 : list (string * value)) : Prop :=
  forall k, dict_get k d1 = dict_get k d2.

(** *** Arguments that the model accepts by converting them *)

(** The field names of every model class in [t] are distinct, as those of
    a class are. *)
Fixpoint check_token (t : type_token) : bool :=
  match t with
  | TOptional t' => check_token t'
  | TList t' => check_token t'
  | TModel _ fields =>
      bool_decide (NoDup (map fst fields))
      && (fix each (fields : list (string * type_token)) : bool :=
            match fields with
            | [] => true
            | (_, ft) :: fields' => check_token ft && each fields'
            end) fields
  | _ => true
  end.

Definition check_tokens (m : ModelClass) : bool :=
  forallb (fun f => check_token (field_type f)) (model_fields m).

(** The model instances in [v] that validation against [t] keeps as they
    are, are instances as their class builds them: of the declared type. *)
Fixpoint check_instances (t : type_token) (v : value) {struct t} : bool :=
  match t with
  | TOptional t' => check_instances t' v
  | TList t' =>
      match v with
      | VList items => forallb (check_instances t') items
      | _ => true
      end
  | TModel cls fields =>
      match v with
      | VModel cls' _ => negb (String.eqb cls' cls) || check_type t v
      | VDict entries =>
          (fix each (fields : list (string * type_token)) : bool :=
             match fields with
             | [] => true
             | (k, ft) :: fields' =>
                 match dict_get k entries with
                 | Some x => check_instances ft x
                 | None => true
                 end && each fields'
             end) fields
      | _ => true
      end
  | _ => true
  end.

Definition check_argument_instances (m : ModelClass) (args : ArgumentDict) : bool :=
  forallb
    (fun f =>
       match dict_get (field_name f) args with
       | Some v => check_instances (field_type f) v
       | None => true
       end)
    (model_fields m).

Section Rebuilding.

Context `{Pydantic}.

(** What the round trip needs of the library: the value it makes of one
    that is not of the declared type is rebuilt from its [dict()] form. *)
Definition conversions_rebuilt : Prop :=
  forall t v x, coerce t v = Ok x -> validate t (to_dict x) = Ok x.

(** The defaults of the parameters that [args] omits are rebuilt from their
    [dict()] form; a default is not validated when the instance is built,
    and is when the instance is parsed back. *)
Definition defaults_rebuilt (m : ModelClass) (args : ArgumentDict) : Prop :=
  forall f d,
    f ∈ model_fields m ->
    dict_get (field_name f) args = None ->
    field_default f = Some d ->
    validate_field [(field_name f, to_dict d)] f = Ok d.

End Rebuilding.

(** ** Service classes and method signatures *)

(** What a method does when called: code written in a class of the
    repository, or the [remote_method] closure that
    [_create_remote_implementation] generates for the named RPC method. *)
Inductive code :=
  | LocalCode (owner : string)
  | RemoteCode (method_name : string) (use_test_client : bool).

(** A function found as a class attribute, with the attributes the
    decorators [rpc_method], [regional_rpc_method] and [abstractmethod] set. *)
Record Method := {
  dunder_name : string;                    (* [__name__] *)
  parameters : list InspectParameter;      (* [inspect.signature], [self] first *)
  return_annotation : annotation;
  is_rpc_method : bool;                    (* [__is_rpc_method] *)
  isabstractmethod : bool;                 (* [__isabstractmethod__] *)
  region_resolution : option RegionResolutionStrategy;
  region_resolution_optional_return : bool;
  method_code : code;
}.

(** [rpc_method(method)] *)
Definition rpc_method (method : Method) : Method :=
  {| dunder_name := dunder_name method;
     parameters := parameters method;
     return_annotation := return_annotation method;
     is_rpc_method := true;
     isabstractmethod := isabstractmethod method;
     region_resolution := region_resolution method;
     region_resolution_optional_return := region_resolution_optional_return method;
     method_code := method_code method |}.

(** [regional_rpc_method(resolve, return_none_if_mapping_not_found)(method)] *)
Definition regional_rpc_method (resolve : RegionResolutionStrategy)
    (return_none_if_mapping_not_found : bool) (method : Method) : Method :=
  rpc_method
    {| dunder_name := dunder_name method;
       parameters := parameters method;
       return_annotation := return_annotation method;
       is_rpc_method := is_rpc_method method;
       isabstractmethod := isabstractmethod method;
       region_resolution := Some resolve;
       region_resolution_optional_return := return_none_if_mapping_not_found;
       method_code := method_code method |}.

(** A class: its name, the class attributes [key] and [local_mode] (when
    they are a [str] and a [SiloMode]), and its callable attributes by
    attribute name, inherited ones included, in the order of [dir(cls)]. *)
Record Class := {
  cls_name : string;
  cls_key : option string;
  cls_local_mode : option SiloMode;
  cls_attrs : list (string * Method);
}.

(** [getattr(cls, name)] *)
Fixpoint lookup_attr (name : string) (attrs : list (string * Method)) : option Method :=
  match attrs with
  | [] => None
  | (n, m) :: attrs' => if String.eqb n name then Some m else lookup_attr name attrs'
  end.

Definition getattr (cls : Class) (name : string) : result Method :=
  match lookup_attr name (cls_attrs cls) with
  | Some m => Ok m
  | None =>
      Raise (Exc AttributeError
               ("type object '" +:+ cls_name cls +:+ "' has no attribute '" +:+ name +:+ "'")
               None)
  end.

(** [cls.key] *)
Definition get_key (cls : Class) : result string :=
  match cls_key cls with
  | Some k => Ok k
  | None =>
      Raise (Exc AttributeError
               ("type object '" +:+ cls_name cls +:+ "' has no attribute 'key'") None)
  end.

Definition _is_abstract_method (method : Method) : bool := isabstractmethod method.

Definition _get_all_rpc_methods (cls : Class) : list Method :=
  map snd (filter (fun a => is_rpc_method (snd a) = true) (cls_attrs cls)).

Definition _get_abstract_rpc_methods (cls : Class) : list Method :=
  filter (fun m => _is_abstract_method m = true) (_get_all_rpc_methods cls).

Definition _has_rpc_methods (cls : Class) : bool :=
  match _get_all_rpc_methods cls with
  | [] => false
  | _ :: _ => true
  end.

Record RpcMethodSignature := {
  _base_service_cls : Class;
  _base_method : Method;
  _parameter_model : ModelClass;
  _return_model : option ModelClass;
  _region_resolution : option RegionResolutionStrategy;
}.

Definition service_name (sig : RpcMethodSignature) : string :=
  cls_name (_base_service_cls sig).
Definition method_name (sig : RpcMethodSignature) : string :=
  dunder_name (_base_method sig).

Definition _RETURN_MODEL_ATTR : string := "value".

Section Signatures.

Context `{Pydantic}.

(** [_validate_type_token]: only a token that is itself a string is refused. *)
Definition _validate_type_token (token : annotation) : result unit :=
  match token with
  | AnnStr _ =>
      Raise (Exc ValueError
               "Type annotations on RPC methods must be actual type tokens, not strings"
               None)
  | _ => Ok tt
  end.

Definition _setup_exception (cls : Class) (method : Method) (message : string)
    (cause : option exception) : exception :=
  RpcException RpcServiceSetupException (cls_name cls) (Some (dunder_name method))
    message cause.

(** The type token a non-string annotation stands for as a field type. *)
Definition annotation_type (a : annotation) : type_token :=
  match a with
  | AnnType t => t
  | AnnNone => TNone
  | AnnEmpty => TOther "inspect._empty"
  | AnnStr s => TForwardRef s
  end.

Definition create_field (cls : Class) (method : Method) (param : InspectParameter)
  : result FieldDef :=
  match param_annotation param with
  | AnnEmpty =>
      Raise (_setup_exception cls method "Type annotations are required on RPC methods" None)
  | a =>
      match _validate_type_token a with
      | Raise e =>
          Raise (_setup_exception cls method
                   ("Type annotations must be actual type tokens, not strings; param.name='"
                    +:+ param_name param +:+ "'")
                   (Some e))
      | Ok _ =>
          Ok {| field_name := param_name param;
                field_type := annotation_type a;
                field_default := param_default param |}
      end
  end.

(** The fields of the dict comprehension, built in parameter order. *)
Fixpoint create_fields (cls : Class) (method : Method) (params : list InspectParameter)
  : result (list FieldDef) :=
  match params with
  | [] => Ok []
  | p :: params' =>
      let? f := create_field cls method p in
      let? fs := create_fields cls method params' in
      Ok (f :: fs)
  end.

Definition _create_parameter_model (cls : Class) (method : Method) : result ModelClass :=
  let name := cls_name cls +:+ "__" +:+ dunder_name method +:+ "__ParameterModel" in
  let parameters := drop 1 (parameters method) in   (* exclude [self] *)
  let? field_definitions := create_fields cls method parameters in
  create_model name field_definitions.

Definition _create_return_model (cls : Class) (method : Method)
  : result (option ModelClass) :=
  let name := cls_name cls +:+ "__" +:+ dunder_name method +:+ "__ReturnModel" in
  let return_type := return_annotation method in
  match return_type with
  | AnnNone => Ok None
  | _ =>
      let? _ := _validate_type_token return_type in
      let? m := create_model name
                  [{| field_name := _RETURN_MODEL_ATTR;
                      field_type := annotation_type return_type;
                      field_default := None |}] in
      Ok (Some m)
  end.

Definition _extract_region_resolution (cls : Class) (method : Method)
  : result (option RegionResolutionStrategy) :=
  let region_resolution := region_resolution method in
  let is_region_service := bool_decide (cls_local_mode cls = Some REGION) in
  if negb is_region_service && bool_decide (is_Some region_resolution) then
    Raise (_setup_exception cls method
             "@regional_rpc_method should be used only on a service with `local_mode = SiloMode.REGION`"
             None)
  else if is_region_service && negb (bool_decide (is_Some region_resolution)) then
    Raise (_setup_exception cls method "Needs @regional_rpc_method" None)
  else Ok region_resolution.

(** [RpcMethodSignature(base_service_cls, base_method)] *)
Definition RpcMethodSignature_init (cls : Class) (method : Method)
  : result RpcMethodSignature :=
  let? parameter_model := _create_parameter_model cls method in
  let? return_model := _create_return_model cls method in
  let? region_resolution := _extract_region_resolution cls method in
  Ok {| _base_service_cls := cls;
        _base_method := method;
        _parameter_model := parameter_model;
        _return_model := return_model;
        _region_resolution := region_resolution |}.

Definition serialize_arguments (sig : RpcMethodSignature) (raw_arguments : ArgumentDict)
  : result ArgumentDict :=
  let? model_instance := model_validate (_parameter_model sig) raw_arguments in
  Ok (model_dict model_instance).

Definition deserialize_arguments (sig : RpcMethodSignature) (serial_arguments : ArgumentDict)
  : result value :=
  match model_validate (_parameter_model sig) serial_arguments with
  | Ok instance => Ok instance
  | Raise e =>
      Raise (RpcException RpcArgumentException (service_name sig) (Some (method_name sig))
               "Could not deserialize arguments" (Some e))
  end.

Definition deserialize_return_value (sig : RpcMethodSignature) (v : value) : result value :=
  match _return_model sig with
  | None =>
      match v with
      | VNone => Ok VNone
      | _ =>
          Raise (RpcException RpcResponseException (service_name sig) (Some (method_name sig))
                   ("Expected None but got " +:+ type_repr v) None)
      end
  | Some return_model =>
      let? parsed := model_validate return_model [(_RETURN_MODEL_ATTR, v)] in
      match dict_get _RETURN_MODEL_ATTR (dunder_dict parsed) with
      | Some x => Ok x
      | None => Raise (Exc AttributeError "object has no attribute 'value'" None)
      end
  end.

(** [_create_signatures]: the first signature that cannot be built stops
    the loop with a setup exception. *)
Fixpoint create_signatures_loop (cls : Class) (methods : list Method)
    (model_table : gmap string RpcMethodSignature)
  : result (gmap string RpcMethodSignature) :=
  match methods with
  | [] => Ok model_table
  | base_method :: methods' =>
      match RpcMethodSignature_init cls base_method with
      | Raise e =>
          let? key := get_key cls in
          Raise (RpcException RpcServiceSetupException key (Some (dunder_name base_method))
                   "Error on parameter model" (Some e))
      | Ok signature =>
          create_signatures_loop cls methods'
            (<[dunder_name base_method := signature]> model_table)
      end
  end.

Definition _create_signatures (cls : Class) : result (gmap string RpcMethodSignature) :=
  create_signatures_loop cls (_get_all_rpc_methods cls) ∅.

(** [RpcService.__init_subclass__]: what defining the class [cls] does;
    the result is the [_signatures] attribute it sets. *)
Definition __init_subclass__ (cls : Class) : result (gmap string RpcMethodSignature) :=
  if _has_rpc_methods cls then
    match cls_key cls with
    | None =>
        Raise (RpcException RpcServiceSetupException (cls_name cls) None
                 "`key` class attribute (str) is required" None)
    | Some key =>
        match cls_local_mode cls with
        | None =>
            Raise (RpcException RpcServiceSetupException key None
                     "`local_mode` class attribute (SiloMode) is required" None)
        | Some _ => _create_signatures cls
        end
    end
  else _create_signatures cls.

End Signatures.

(** A method one of whose declared parameters, or whose return value, is
    annotated with a string. *)
Definition has_string_annotation (method : Method) : Prop :=
  (exists p s, p ∈ drop 1 (parameters method) /\ param_annotation p = AnnStr s)
  \/ (exists s, return_annotation method = AnnStr s).

(** ** Delegation: local and remote implementations *)

(** A base service class as declared: the class, the [_signatures] that
    [__init_subclass__] stored on it, and what its
    [get_local_implementation] returns (an instance, given by its class). *)
Record RpcService := {
  service_cls : Class;
  _signatures : gmap string RpcMethodSignature;
  get_local_implementation : result Class;
}.

(** The two callables [create_delegation] puts in [constructors]. *)
Inductive Constructor :=
  | get_and_validate_local_implementation
  | create_remote_implementation (use_test_client : bool) (nonlocal_class : option Class).

Inductive DelegateKind := LocalDelegate | RemoteDelegate.

Definition delegate_kind (c : Constructor) : DelegateKind :=
  match c with
  | get_and_validate_local_implementation => LocalDelegate
  | create_remote_implementation _ _ => RemoteDelegate
  end.

Record DelegatingRpcService := {
  base_service_cls : RpcService;
  constructors : SiloMode -> Constructor;
  signatures : gmap string RpcMethodSignature;
}.

(** The function object [remote_method] that [create_remote_method] returns:
    a plain function, not abstract and without the RPC marker; the module
    postpones the evaluation of annotations, so those of [remote_method] are
    strings. *)
Definition remote_method_function (method_name : string) (use_test_client : bool) : Method :=
  {| dunder_name := "remote_method";
     parameters :=
       [ {| param_name := "service_obj"; param_annotation := AnnStr "RpcService";
            param_default := None |};
         {| param_name := "kwargs"; param_annotation := AnnStr "Any";
            param_default := None |} ];
     return_annotation := AnnStr "Any";
     is_rpc_method := false;
     isabstractmethod := false;
     region_resolution := None;
     region_resolution_optional_return := false;
     method_code := RemoteCode method_name use_test_client |}.

(** [attrs[name] = m] on a namespace kept in [dir] order. *)
Fixpoint set_attr (name : string) (m : Method) (attrs : list (string * Method))
  : list (string * Method) :=
  match attrs with
  | [] => [(name, m)]
  | (n, m') :: attrs' =>
      match String.compare name n with
      | Eq => (name, m) :: attrs'
      | Lt => (name, m) :: (n, m') :: attrs'
      | Gt => (n, m') :: set_attr name m attrs'
      end
  end.

(** [type(name, (base,), overrides)] *)
Definition type_new (name : string) (base : Class) (overrides : list (string * Method)) : Class :=
  {| cls_name := name;
     cls_key := cls_key base;
     cls_local_mode := cls_local_mode base;
     cls_attrs := fold_left (fun attrs o => set_attr (fst o) (snd o) attrs)
                    overrides (cls_attrs base) |}.

(** [cls()] for a class under [abc.ABC]. *)
Definition instantiate (cls : Class) : result Class :=
  if forallb (fun a => negb (isabstractmethod (snd a))) (cls_attrs cls) then Ok cls
  else
    Raise (Exc TypeError
             ("Can't instantiate abstract class " +:+ cls_name cls +:+ " with abstract methods")
             None).

(** [get_parameters]: the parameter names without a leading [self]. *)
Definition get_parameters (method : Method) : list string :=
  match map param_name (parameters method) with
  | first :: rest => if String.eqb first "self" then rest else first :: rest
  | [] => []
  end.

Section Delegation.

Context `{Pydantic}.

Fixpoint validate_local_methods (cls : Class) (impl : Class) (methods : list Method)
  : result unit :=
  match methods with
  | [] => Ok tt
  | method_sig :: methods' =>
      let? method_impl := getattr impl (dunder_name method_sig) in
      if _is_abstract_method method_impl then
        let? key := get_key cls in
        Raise (RpcException RpcServiceSetupException key (Some (dunder_name method_sig))
                 (cls_name impl +:+ " must provide a concrete implementation") None)
      else
        let sig_params : gset string := list_to_set (get_parameters method_sig) in
        let impl_params : gset string := list_to_set (get_parameters method_impl) in
        if negb (bool_decide (sig_params = impl_params)) then
          let? key := get_key cls in
          Raise (RpcException RpcServiceSetupException key (Some (dunder_name method_sig))
                   "Does not match specified parameters" None)
        else validate_local_methods cls impl methods'
  end.

Definition _get_and_validate_local_implementation (cls : RpcService) : result Class :=
  let? impl := get_local_implementation cls in
  let? _ := validate_local_methods (service_cls cls) impl
              (_get_abstract_rpc_methods (service_cls cls)) in
  Ok impl.

Definition should_generate_remote_method (nonlocal_class : option Class)
    (service_method : Method) : result bool :=
  match nonlocal_class with
  | None => Ok true
  | Some nonlocal_class =>
      let? nonlocal_method := getattr nonlocal_class (dunder_name service_method) in
      Ok (_is_abstract_method nonlocal_method)
  end.

(** [create_remote_method]: the signature is looked up when the method
    is created. *)
Definition create_remote_method (cls : RpcService) (use_test_client : bool)
    (method_name : string) : result Method :=
  match _signatures cls !! method_name with
  | Some _ => Ok (remote_method_function method_name use_test_client)
  | None => Raise (Exc KeyError method_name None)
  end.

(** [d[name] = m] on a dict in insertion order. *)
Fixpoint dict_set (name : string) (m : Method) (d : list (string * Method))
  : list (string * Method) :=
  match d with
  | [] => [(name, m)]
  | (n, m') :: d' =>
      if String.eqb n name then (n, m) :: d' else (n, m') :: dict_set name m d'
  end.

(** The dict comprehension that builds [rpc_overrides]. *)
Fixpoint rpc_overrides_loop (cls : RpcService) (use_test_client : bool)
    (nonlocal_class : option Class) (methods : list Method)
    (acc : list (string * Method)) : result (list (string * Method)) :=
  match methods with
  | [] => Ok acc
  | service_method :: methods' =>
      let? generate := should_generate_remote_method nonlocal_class service_method in
      if generate then
        let? remote := create_remote_method cls use_test_client (dunder_name service_method) in
        rpc_overrides_loop cls use_test_client nonlocal_class methods'
          (dict_set (dunder_name service_method) remote acc)
      else rpc_overrides_loop cls use_test_client nonlocal_class methods' acc
  end.

Definition rpc_overrides (cls : RpcService) (use_test_client : bool)
    (nonlocal_class : option Class) : result (list (string * Method)) :=
  rpc_overrides_loop cls use_test_client nonlocal_class
    (_get_abstract_rpc_methods (service_cls cls)) [].

(** [_create_remote_implementation]: the service object that calls
    another silo.  Creating the delegate class runs [__init_subclass__]
    on it. *)
Definition _create_remote_implementation (cls : RpcService) (use_test_client : bool)
    (nonlocal_class : option Class) : result Class :=
  let? overrides := rpc_overrides cls use_test_client nonlocal_class in
  match nonlocal_class, overrides with
  | Some nonlocal_class, [] => instantiate nonlocal_class
  | _, _ =>
      let base_class := default (service_cls cls) nonlocal_class in
      let remote_service_class :=
        type_new (cls_name (service_cls cls) +:+ "__RemoteDelegate") base_class overrides in
      let? _ := __init_subclass__ remote_service_class in
      instantiate remote_service_class
  end.

(** Calling one of the [constructors]. *)
Definition construct (cls : RpcService) (c : Constructor) : result Class :=
  match c with
  | get_and_validate_local_implementation => _get_and_validate_local_implementation cls
  | create_remote_implementation use_test_client nonlocal_class =>
      _create_remote_implementation cls use_test_client nonlocal_class
  end.

End Delegation.

(** Every entry of a table of overrides is the remote method of its key. *)
Definition remote_entries (use_test_client : bool) (overrides : list (string * Method)) : Prop :=
  Forall (fun o => snd o = remote_method_function (fst o) use_test_client) overrides.

(** ** The process: registry, transport and remote dispatch *)

Record HttpRequest := {
  req_test_client : bool;                  (* sent through [django.test.Client] *)
  req_region : option Region;              (* the target; [None] is the control silo *)
  req_url : string;
  req_headers : list (string * string);
  req_data : list byte;
}.

(** A response: [status_code], and what [response.json()] gives. *)
Record HttpResponse := {
  status_code : Z;
  response_json : result value;
}.

(** What the module takes from outside: the settings, whether the process
    is a test run, the URL of a service method ([django.urls.reverse]), the
    JSON encoder, the text [str] gives for a value, the peer that answers a
    request (or the exception the HTTP client raises), and the attribute
    names that an instance of the facade has from [DelegatedBySiloMode] and
    [object].  Metrics and tracing are not modelled. *)
Class Process := {
  settings : Settings;
  in_test_environment : bool;
  reverse : string -> string -> string;
  json_dumps : value -> string;
  format_value : value -> string;
  post : HttpRequest -> result HttpResponse;
  inherited_attribute : string -> bool;
}.

(** The mutable state: [_global_service_registry], the current silo mode
    and the requests handed to the transport so far, oldest first. *)
Record World := {
  _global_service_registry : gmap string DelegatingRpcService;
  current_mode : SiloMode;
  transport_calls : list HttpRequest;
}.

(** A computation that reads and writes the world and may raise. *)
Definition M (A : Type) : Type := World -> result A * World.

Definition ret {A} (a : A) : M A := fun w => (Ok a, w).
Definition raise {A} (e : exception) : M A := fun w => (Raise e, w).
Definition lift {A} (r : result A) : M A := fun w => (r, w).
Definition bind {A B} (m : M A) (k : A -> M B) : M B :=
  fun w =>
    match m w with
    | (Ok a, w') => k a w'
    | (Raise e, w') => (Raise e, w')
    end.

Notation "'let!' x ':=' m 'in' k" := (bind m (fun x => k))
  (at level 10, x pattern, m at level 100, k at level 200) : result_scope.

(** What [getattr(service, method_name)] returns: a function, or another
    object kept under the attribute name. *)
Inductive Attribute :=
  | MethodAttribute (method : Method)
  | ModeAttribute (mode : SiloMode)
  | KeyAttribute (key : string)
  | ClassAttribute (cls : RpcService)
  | SignaturesAttribute (table : gmap string RpcMethodSignature)
  | InheritedAttribute (name : string).

(** [getattr(impl, name)] on an instance of the class [impl]: a callable
    attribute, or one of the class attributes [key] and [local_mode]. *)
Definition implementation_attribute (impl : Class) (name : string) : option Attribute :=
  match lookup_attr name (cls_attrs impl) with
  | Some method => Some (MethodAttribute method)
  | None =>
      if String.eqb name "key" then option_map KeyAttribute (cls_key impl)
      else if String.eqb name "local_mode" then option_map ModeAttribute (cls_local_mode impl)
      else None
  end.

Definition instance_getattr (impl : Class) (name : string) : result Attribute :=
  match implementation_attribute impl name with
  | Some found => Ok found
  | None =>
      Raise (Exc AttributeError
               ("'" +:+ cls_name impl +:+ "' object has no attribute '" +:+ name +:+ "'")
               None)
  end.

(** A method that [DelegatingRpcService] defines, as a function object; the
    module postpones the evaluation of annotations, so they are strings. *)
Definition facade_method (name : string) (params : list (string * string))
    (returns : string) : Method :=
  {| dunder_name := name;
     parameters :=
       {| param_name := "self"; param_annotation := AnnEmpty; param_default := None |}
       :: map (fun p => {| param_name := fst p; param_annotation := AnnStr (snd p);
                           param_default := None |}) params;
     return_annotation := AnnStr returns;
     is_rpc_method := false;
     isabstractmethod := false;
     region_resolution := None;
     region_resolution_optional_return := false;
     method_code := LocalCode "DelegatingRpcService" |}.

Record _RegionResolutionResult := {
  region : option Region;
  is_early_halt : bool;
}.

(** The constructor with its [__post_init__] check. *)
Definition _RegionResolutionResult_init (region : option Region) (is_early_halt : bool)
  : result _RegionResolutionResult :=
  if negb (Bool.eqb (bool_decide (region = None)) is_early_halt) then
    Raise (Exc ValueError "region must be supplied if and only if not halting early" None)
  else Ok {| region := region; is_early_halt := is_early_halt |}.

Section Dispatch.

Context `{Pydantic} `{Process}.

Definition resolve_to_region (sig : RpcMethodSignature) (arguments : ArgumentDict)
  : result _RegionResolutionResult :=
  match _region_resolution sig with
  | None =>
      Raise (_setup_exception (_base_service_cls sig) (_base_method sig)
               "Does not run on the region silo" None)
  | Some strategy =>
      let inner :=
        match (let? region := resolve strategy arguments in
               _RegionResolutionResult_init region false) with
        | Ok r => Ok r
        | Raise e =>
            if bool_decide (exc_cls e = RegionMappingNotFound) then
              if region_resolution_optional_return (_base_method sig)
              then _RegionResolutionResult_init None true
              else Raise e
            else Raise e
        end in
      match inner with
      | Ok r => Ok r
      | Raise e =>
          Raise (RpcException RpcServiceUnimplementedException
                   (service_name sig) (Some (method_name sig))
                   "Error while resolving region" (Some e))
      end
  end.

Definition get_current_mode : M SiloMode := fun w => (Ok (current_mode w), w).

(** The attributes of the facade object itself, which [getattr] finds
    without calling [__getattr__]: the methods and the property that
    [DelegatingRpcService] defines, the two attributes its [__init__] sets,
    and what it inherits.  The property [local_mode] reads the attribute of
    the base service class; where that raises [AttributeError], the lookup
    goes on to [__getattr__]. *)
Definition facade_attribute (service : DelegatingRpcService) (name : string)
  : option Attribute :=
  if String.eqb name "__init__" then
    Some (MethodAttribute
            (facade_method "__init__"
               [("base_service_cls", "Type[RpcService]");
                ("constructors", "Mapping[SiloMode, Callable[[], RpcService]]");
                ("signatures", "Mapping[str, RpcMethodSignature]")] "None"))
  else if String.eqb name "deserialize_rpc_arguments" then
    Some (MethodAttribute
            (facade_method "deserialize_rpc_arguments"
               [("method_name", "str"); ("serial_arguments", "ArgumentDict")]
               "pydantic.BaseModel"))
  else if String.eqb name "deserialize_rpc_response" then
    Some (MethodAttribute
            (facade_method "deserialize_rpc_response"
               [("method_name", "str"); ("serial_response", "Any")] "Any"))
  else if String.eqb name "_base_service_cls" then
    Some (ClassAttribute (base_service_cls service))
  else if String.eqb name "_signatures" then
    Some (SignaturesAttribute (signatures service))
  else if String.eqb name "local_mode" then
    option_map ModeAttribute (cls_local_mode (service_cls (base_service_cls service)))
  else if inherited_attribute name then Some (InheritedAttribute name)
  else None.

(** [getattr(service, name)] on the facade: its own attributes first, then
    [__getattr__], which goes to the implementation bound for the current
    mode.  Modelled from the spec: [DelegatedBySiloMode] is not part of the
    module; the facade holds, per topology mode, the delegate resolved by
    the constructor of that mode, and the attribute names an instance has
    from [DelegatedBySiloMode] and [object] are [inherited_attribute]. *)
Definition facade_getattr (service : DelegatingRpcService) (name : string) : M Attribute :=
  match facade_attribute service name with
  | Some found => ret found
  | None =>
      let! mode := get_current_mode in
      lift (let? impl := construct (base_service_cls service) (constructors service mode) in
            instance_getattr impl name)
  end.

Definition _look_up_service_method (service_name method_name : string)
  : M (DelegatingRpcService * Attribute) :=
  fun w =>
    match _global_service_registry w !! service_name with
    | None =>
        (Raise (Exc RpcResolutionException ("Not a service name: '" +:+ service_name +:+ "'")
                  None), w)
    | Some service =>
        match facade_getattr service method_name w with
        | (Ok method, w') => (Ok (service, method), w')
        | (Raise e, w') =>
            if bool_decide (exc_cls e = AttributeError) then
              (Raise (Exc RpcResolutionException
                        ("Not a method name on '" +:+ service_name +:+ "': '"
                         +:+ method_name +:+ "'") None), w')
            else (Raise e, w')
        end
    end.

(** [DelegatingRpcService.deserialize_rpc_response] *)
Definition deserialize_rpc_response (service : DelegatingRpcService)
    (method_name : string) (serial_response : value) : result value :=
  match signatures service !! method_name with
  | None => Raise (Exc KeyError method_name None)
  | Some signature => deserialize_return_value signature serial_response
  end.

(** [DelegatingRpcService.deserialize_rpc_arguments] *)
Definition deserialize_rpc_arguments (service : DelegatingRpcService)
    (method_name : string) (serial_arguments : ArgumentDict) : result value :=
  match signatures service !! method_name with
  | None => Raise (Exc KeyError method_name None)
  | Some signature => deserialize_arguments signature serial_arguments
  end.

Record _RemoteSiloCall := {
  call_region : option Region;
  call_service_name : string;
  call_method_name : string;
  serial_arguments : ArgumentDict;
}.

Definition _remote_exception (self : _RemoteSiloCall) (message : string) : exception :=
  RpcException RpcRemoteException (call_service_name self) (Some (call_method_name self))
    message None.

Definition address (self : _RemoteSiloCall) : result string :=
  match call_region self with
  | None =>
      if String.eqb (SENTRY_CONTROL_ADDRESS settings) "" then
        Raise (RpcException RpcServiceSetupException (call_service_name self)
                 (Some (call_method_name self)) "Control silo address is not configured" None)
      else Ok (SENTRY_CONTROL_ADDRESS settings)
  | Some region =>
      if String.eqb (region_address region) "" then
        Raise (RpcException RpcServiceSetupException (call_service_name self)
                 (Some (call_method_name self))
                 ("Address for region '" +:+ region_name region +:+ "' is not configured") None)
      else Ok (region_address region)
  end.

Definition path (self : _RemoteSiloCall) : string :=
  reverse (call_service_name self) (call_method_name self).

(** Handing a request to the transport records it, whatever the answer. *)
Definition send (request : HttpRequest) : M HttpResponse :=
  fun w =>
    (post request,
     {| _global_service_registry := _global_service_registry w;
        current_mode := current_mode w;
        transport_calls := transport_calls w ++ [request] |}).

Definition _fire_test_request (self : _RemoteSiloCall) (headers : list (string * string))
    (data : list byte) : M HttpResponse :=
  send {| req_test_client := true; req_region := call_region self;
          req_url := path self; req_headers := headers; req_data := data |}.

Definition _fire_request (self : _RemoteSiloCall) (headers : list (string * string))
    (data : list byte) : M HttpResponse :=
  let! address := lift (address self) in
  send {| req_test_client := false; req_region := call_region self;
          req_url := address +:+ path self; req_headers := headers; req_data := data |}.

Definition _raise_from_response_status_error (self : _RemoteSiloCall)
    (response : HttpResponse) : exception :=
  if in_test_environment then
    if status_code response =? 500 then
      _remote_exception self
        ("Error invoking rpc at '" +:+ path self +:+ "': check error logs for more details")
    else
      match (let? body := response_json response in
             match body with
             | VDict entries =>
                 match dict_get "detail" entries with
                 | Some detail => Ok detail
                 | None => Raise (Exc KeyError "detail" None)
                 end
             | _ => Raise (Exc TypeError "response is not an object" None)
             end) with
      | Raise e => e
      | Ok detail =>
          _remote_exception self
            ("Error (" +:+ Py.str_int (status_code response) +:+ " status) invoking rpc at '"
             +:+ path self +:+ "': " +:+ format_value detail)
      end
  else if status_code response =? 403 then
    _remote_exception self "Unauthorized service access"
  else if status_code response =? 400 then
    _remote_exception self "Invalid service request"
  else
    _remote_exception self
      ("Service unavailable (" +:+ Py.str_int (status_code response) +:+ " status)").

Definition _send_to_remote_silo (self : _RemoteSiloCall) (use_test_client : bool) : M value :=
  let request_body := VDict [("meta", VDict []); ("args", VDict (serial_arguments self))] in
  let data := Py.encode (json_dumps request_body) in
  let! signature := lift (generate_request_signature settings (path self) data) in
  let headers :=
    [("Content-Type", "application/json; charset=utf-8");
     ("Authorization", "Rpcsignature " +:+ signature)]%string in
  let! response :=
    if use_test_client then _fire_test_request self headers data
    else _fire_request self headers data in
  if status_code response =? 200 then lift (response_json response)
  else raise (_raise_from_response_status_error self response).

(** [serial_response["value"]] *)
Definition subscript_value (serial_response : value) : result value :=
  match serial_response with
  | VDict entries =>
      match dict_get "value" entries with
      | Some v => Ok v
      | None => Raise (Exc KeyError "value" None)
      end
  | _ => Raise (Exc TypeError "response is not subscriptable by 'value'" None)
  end.

Definition dispatch (self : _RemoteSiloCall) (use_test_client : bool) : M value :=
  let! serial_response := _send_to_remote_silo self use_test_client in
  let! return_value := lift (subscript_value serial_response) in
  let! found := _look_up_service_method (call_service_name self) (call_method_name self) in
  let service := fst found in
  match return_value with
  | VNone => ret VNone
  | _ => lift (deserialize_rpc_response service (call_method_name self) return_value)
  end.

Definition dispatch_remote_call (region : option Region) (service_name method_name : string)
    (serial_arguments : ArgumentDict) (use_test_client : bool) : M value :=
  let remote_silo_call :=
    {| call_region := region; call_service_name := service_name;
       call_method_name := method_name; serial_arguments := serial_arguments |} in
  dispatch remote_silo_call use_test_client.

(** The closure [remote_method] of [create_remote_method], for the
    service class [cls] and the signature found for [method_name]. *)
Definition remote_method (cls : RpcService) (method_name : string)
    (signature : RpcMethodSignature) (use_test_client : bool) (kwargs : ArgumentDict)
  : M value :=
  let! region :=
    if bool_decide (cls_local_mode (service_cls cls) = Some REGION) then
      let! result := lift (resolve_to_region signature kwargs) in
      ret (if is_early_halt result then None else Some (region result))
    else ret (Some None) in
  match region with
  | None => ret VNone       (* early halt *)
  | Some region =>
      let! serial_arguments := lift (serialize_arguments signature kwargs) in
      let! key := lift (get_key (service_cls cls)) in
      dispatch_remote_call region key method_name serial_arguments use_test_client
  end.

(** Calling a method of a delegate built for [cls]. *)
Definition call_remote_code (cls : RpcService) (method : Method) (kwargs : ArgumentDict)
  : option (M value) :=
  match method_code method with
  | RemoteCode method_name use_test_client =>
      match _signatures cls !! method_name with
      | Some signature => Some (remote_method cls method_name signature use_test_client kwargs)
      | None => None
      end
  | LocalCode _ => None
  end.

(** [create_delegation] *)
Definition create_delegation (cls : RpcService) (use_test_client : option bool)
    (nonlocal_class : option Class) : M DelegatingRpcService :=
  let use_test_client := default in_test_environment use_test_client in
  match cls_local_mode (service_cls cls) with
  | None =>
      raise (Exc AttributeError
               ("type object '" +:+ cls_name (service_cls cls)
                +:+ "' has no attribute 'local_mode'") None)
  | Some local_mode =>
      let constructors := fun mode : SiloMode =>
        if bool_decide (mode = MONOLITH) || bool_decide (mode = local_mode)
        then get_and_validate_local_implementation
        else create_remote_implementation use_test_client nonlocal_class in
      let service :=
        {| base_service_cls := cls; constructors := constructors;
           signatures := _signatures cls |} in
      let! key := lift (get_key (service_cls cls)) in
      fun w =>
        (Ok service,
         {| _global_service_registry := <[key := service]> (_global_service_registry w);
            current_mode := current_mode w;
            transport_calls := transport_calls w |})
  end.

End Dispatch.

(** ** A concrete contract, used to run the definitions *)

Module Sample.

(** A library that converts nothing and refuses no declaration. *)
#[export] Instance strict : Pydantic := {|
  coerce := fun _ _ => Raise (Exc ValidationError "value is not of the declared type" None);
  create_model_error := fun _ _ => None;
|}.

(** A library that converts as [pydantic] documents it for two cases: a
    [bool] given for an [int] becomes 0 or 1, and an [int] given for a [str]
    becomes its decimal text; it refuses everything else. *)
Definition lax : Pydantic := {|
  coerce := fun t v =>
    match t, v with
    | TInt, VBool b => Ok (VInt (if b then 1 else 0))
    | TStr, VInt n => Ok (VStr (Py.str_int n))
    | _, _ => Raise (Exc ValidationError "value is not of the declared type" None)
    end;
  create_model_error := fun _ _ => None;
|}.

Definition us : Region := {| region_name := "us"; region_address := "http://us.internal" |}.

(** Organization 1 lives in [us]; no other organization is mapped. *)
Definition by_organization_id : RegionResolutionStrategy :=
  {| resolve := fun arguments =>
       match dict_get "organization_id" arguments with
       | Some (VInt 1) => Ok (Some us)
       | _ => Raise (Exc RegionMappingNotFound "" None)
       end |}.

Definition RpcOrganization : type_token :=
  TModel "RpcOrganization" [("id", TInt); ("slug", TStr); ("flags", TList TStr)].

Definition self : InspectParameter :=
  {| param_name := "self"; param_annotation := AnnEmpty; param_default := None |}.

Definition abstract_method (name : string) (params : list InspectParameter)
    (returns : annotation) : Method :=
  {| dunder_name := name;
     parameters := self :: params;
     return_annotation := returns;
     is_rpc_method := false;
     isabstractmethod := true;
     region_resolution := None;
     region_resolution_optional_return := false;
     method_code := LocalCode "OrganizationService" |}.

Definition organization_id : InspectParameter :=
  {| param_name := "organization_id"; param_annotation := AnnType TInt;
     param_default := None |}.

(** [get_organization(self, organization_id: int) -> Optional[RpcOrganization]],
    which may halt early. *)
Definition get_organization : Method :=
  regional_rpc_method by_organization_id true
    (abstract_method "get_organization" [organization_id]
       (AnnType (TOptional RpcOrganization))).

(** [count_members(self, organization_id: int) -> int] *)
Definition count_members : Method :=
  regional_rpc_method by_organization_id false
    (abstract_method "count_members" [organization_id] (AnnType TInt)).

(** [update_organization(self, organization_id: int, organization:
    RpcOrganization, tags: List[Optional[str]], limit: Optional[int] = 10) -> None] *)
Definition update_organization : Method :=
  regional_rpc_method by_organization_id false
    (abstract_method "update_organization"
       [organization_id;
        {| param_name := "organization"; param_annotation := AnnType RpcOrganization;
           param_default := None |};
        {| param_name := "tags"; param_annotation := AnnType (TList (TOptional TStr));
           param_default := None |};
        {| param_name := "limit"; param_annotation := AnnType (TOptional TInt);
           param_default := Some (VInt 10) |}]
       AnnNone).

Definition OrganizationService : Class :=
  {| cls_name := "OrganizationService";
     cls_key := Some "organization";
     cls_local_mode := Some REGION;
     cls_attrs := [("count_members", count_members);
                   ("get_organization", get_organization);
                   ("update_organization", update_organization)] |}.

Definition concrete (owner : string) (m : Method) : Method :=
  {| dunder_name := dunder_name m;
     parameters := parameters m;
     return_annotation := return_annotation m;
     is_rpc_method := false;
     isabstractmethod := false;
     region_resolution := None;
     region_resolution_optional_return := false;
     method_code := LocalCode owner |}.

(** The database-backed implementation of every method. *)
Definition DatabaseBackedOrganizationService : Class :=
  {| cls_name := "DatabaseBackedOrganizationService";
     cls_key := Some "organization";
     cls_local_mode := Some REGION;
     cls_attrs := map (fun a => (fst a, concrete "DatabaseBackedOrganizationService" (snd a)))
                    (cls_attrs OrganizationService) |}.

(** A partial override that answers [count_members] from replicated
    data and leaves the other methods abstract. *)
Definition ReplicaOrganizationService : Class :=
  {| cls_name := "ReplicaOrganizationService";
     cls_key := Some "organization";
     cls_local_mode := Some REGION;
     cls_attrs := [("count_members", concrete "ReplicaOrganizationService" count_members);
                   ("get_organization", get_organization);
                   ("update_organization", update_organization)] |}.

Definition organization_service : RpcService :=
  {| service_cls := OrganizationService;
     _signatures := match __init_subclass__ OrganizationService with
                    | Ok table => table
                    | Raise _ => ∅
                    end;
     get_local_implementation := Ok DatabaseBackedOrganizationService |}.

(** Attribute names that every object has. *)
Definition inherited (name : string) : bool :=
  bool_decide (name ∈ ["__class__"; "__dict__"; "__doc__"; "__module__"]).

(** A process of the control silo whose peer answers every request with
    status 200 and the envelope [{"meta": {}, "value": v}]. *)
Definition answering (v : value) : Process :=
  {| settings := {| RPC_SHARED_SECRET := ["new"; "old"];
                    SENTRY_CONTROL_ADDRESS := "http://control.internal" |};
     in_test_environment := false;
     reverse := fun service method =>
       "/api/0/internal/rpc/" +:+ service +:+ "/" +:+ method +:+ "/";
     json_dumps := fun _ => "{}";
     format_value := fun _ => "";
     inherited_attribute := inherited;
     post := fun _ =>
       Ok {| status_code := 200;
             response_json := Ok (VDict [("meta", VDict []); ("value", v)]) |} |}.

Definition organization : value :=
  VModel "RpcOrganization"
    [("id", VInt 1); ("slug", VStr "acme"); ("flags", VList [VStr "early-adopter"])].

(** Keyword arguments for [update_organization] that name every
    parameter, and the same without [limit], which has a default. *)
Definition update_arguments : ArgumentDict :=
  [("tags", VList [VStr "a"; VNone]); ("organization_id", VInt 1);
   ("organization", organization); ("limit", VNone)].

Definition update_arguments_without_limit : ArgumentDict :=
  [("tags", VList [VStr "a"; VNone]); ("organization_id", VInt 1);
   ("organization", organization)].

(** Keyword arguments for [update_organization] that are not of the
    declared types and that a converting library accepts: a [bool] for the
    [int], a [dict] for the organization, an [int] among the tags. *)
Definition update_arguments_converted : ArgumentDict :=
  [("organization_id", VBool true);
   ("organization", VDict [("id", VInt 1); ("slug", VInt 5); ("flags", VList [])]);
   ("tags", VList [VInt 7; VNone])].

Definition empty_world : World :=
  {| _global_service_registry := ∅; current_mode := CONTROL; transport_calls := [] |}.

(** The world after [OrganizationService.create_delegation()]. *)
Definition delegated (P : Process) : World :=
  snd (@create_delegation P organization_service None None empty_world).

End Sample.

(** Remote calls of the sample contract, to the region [us]. *)
Definition sample_call (method_name : string) (arguments : ArgumentDict) : _RemoteSiloCall :=
  {| call_region := Some Sample.us; call_service_name := "organization";
     call_method_name := method_name; serial_arguments := arguments |}.

(** Declarations with a string where a type token is expected. *)

(** [def f(self, organization: "RpcOrganization") -> None] *)
Definition string_annotated : Method :=
  rpc_method
    (Sample.abstract_method "f"
       [{| param_name := "organization"; param_annotation := AnnStr "RpcOrganization";
           param_default := None |}]
       AnnNone).

Definition StringAnnotatedService : Class :=
  {| cls_name := "StringAnnotatedService";
     cls_key := Some "annotated";
     cls_local_mode := Some CONTROL;
     cls_attrs := [("f", string_annotated)] |}.

(** [def g(self, organization: Optional["RpcOrganization"]) -> None] *)
Definition nested_string_annotated : Method :=
  rpc_method
    (Sample.abstract_method "g"
       [{| param_name := "organization";
           param_annotation := AnnType (TOptional (TForwardRef "RpcOrganization"));
           param_default := None |}]
       AnnNone).

(** The characters of [0123456789abcdef]. *)
Definition is_lower_hex (c : ascii) : bool :=
  existsb (Ascii.eqb c)
    ["0"; "1"; "2"; "3"; "4"; "5"; "6"; "7"; "8"; "9"; "a"; "b"; "c"; "d"; "e"; "f"]%char.

(** The field [create_field] makes of a parameter it accepts. *)
Definition field_of_parameter (param : InspectParameter) : FieldDef :=
  {| field_name := param_name param;
     field_type := annotation_type (param_annotation param);
     field_default := param_default param |}.

(** An annotation [create_field] accepts: present and not a string. *)
Definition usable_annotation (a : annotation) : bool :=
  match a with
  | AnnEmpty | AnnStr _ => false
  | AnnNone | AnnType _ => true
  end.

(** A process without shared secret and without control address. *)
Definition unconfigured_process : Process :=
  {| settings := {| RPC_SHARED_SECRET := []; SENTRY_CONTROL_ADDRESS := "" |};
     in_test_environment := false;
     reverse := fun service method =>
       "/api/0/internal/rpc/" +:+ service +:+ "/" +:+ method +:+ "/";
     json_dumps := fun _ => "{}";
     format_value := fun _ => "";
     inherited_attribute := Sample.inherited;
     post := fun _ => Ok {| status_code := 200; response_json := Ok (VDict []) |} |}.

(** A production process whose peer answers every request with [status]
    and a body that is not JSON. *)
Definition refused_process (status : Z) : Process :=
  {| settings := {| RPC_SHARED_SECRET := ["new"; "old"];
                    SENTRY_CONTROL_ADDRESS := "http://control.internal" |};
     in_test_environment := false;
     reverse := fun service method =>
       "/api/0/internal/rpc/" +:+ service +:+ "/" +:+ method +:+ "/";
     json_dumps := fun _ => "{}";
     format_value := fun _ => "";
     inherited_attribute := Sample.inherited;
     post := fun _ =>
       Ok {| status_code := status;
             response_json := Raise (Exc JSONDecodeError "Expecting value" None) |} |}.

(** The message of the exception a production process raises for a
    response status other than 200. *)
Definition production_status_message (status : Z) : string :=
  if status =? 403 then "Unauthorized service access"
  else if status =? 400 then "Invalid service request"
  else "Service unavailable (" +:+ Py.str_int status +:+ " status)".

(** The body [_send_to_remote_silo] sends for a call. *)
Definition request_data `{Process} (self : _RemoteSiloCall) : list byte :=
  Py.encode (json_dumps (VDict [("meta", VDict []); ("args", VDict (serial_arguments self))])).

(** The world after one more request was handed to the transport. *)
Definition with_transport_call (request : HttpRequest) (w : World) : World :=
  {| _global_service_registry := _global_service_registry w;
     current_mode := current_mode w;
     transport_calls := transport_calls w ++ [request] |}.

(** What a request of [self] has to look like when signed with [tag]. *)
Definition request_of `{Process} (self : _RemoteSiloCall) (use_test_client : bool)
    (tag : string) (request : HttpRequest) : Prop :=
  req_test_client request = use_test_client
  /\ req_region request = call_region self
  /\ req_data request = request_data self
  /\ req_headers request
     = [("Content-Type", "application/json; charset=utf-8");
        ("Authorization", "Rpcsignature " +:+ tag)]%string
  /\ (if use_test_client then req_url request = path self
      else exists a, address self = Ok a /\ req_url request = a +:+ path self).

(** ** Local dispatch: the receiving side *)

(** [result_to_dict] of [dispatch_to_local_service]: a model instance
    becomes its [dict()], dicts and other iterables are converted item by
    item (a [str] is left alone), and anything else is kept. *)
Fixpoint result_to_dict (v : value) : value :=
  match v with
  | VModel _ _ => to_dict v
  | VDict entries => VDict (map (fun kv => (fst kv, result_to_dict (snd kv))) entries)
  | VList items => VList (map result_to_dict items)
  | _ => v
  end.

(** A value without model instances, at any depth. *)
Fixpoint is_plain (v : value) : bool :=
  match v with
  | VModel _ _ => false
  | VList items => forallb is_plain items
  | VDict entries => forallb (fun kv => is_plain (snd kv)) entries
  | _ => true
  end.

Section LocalDispatch.

Context `{Pydantic} `{Process}.

(** Calling the object found with keyword arguments: the code of the
    implementation, which is not part of the module. *)
Variable invoke : Attribute -> list (string * value) -> M value.

Definition dispatch_to_local_service (service_name method_name : string)
    (serial_arguments : ArgumentDict) : M value :=
  let! found := _look_up_service_method service_name method_name in
  let service := fst found in
  let method := snd found in
  let! raw_arguments :=
    lift (deserialize_rpc_arguments service method_name serial_arguments) in
  let! result := invoke method (dunder_dict raw_arguments) in
  ret (VDict [("meta", VDict []); ("value", result_to_dict result)]).

End LocalDispatch.

(** The region silo of the sample contract: the world after
    [create_delegation], in mode [REGION]. *)
Definition region_silo : World :=
  {| _global_service_registry :=
       _global_service_registry (Sample.delegated (Sample.answering VNone));
     current_mode := REGION;
     transport_calls := [] |}.

(** A stand-in for the database-backed methods: [count_members] counts 7,
    the other methods return the sample organization. *)
Definition sample_invoke (found : Attribute) (kwargs : list (string * value)) : M value :=
  match found with
  | MethodAttribute method =>
      if String.eqb (dunder_name method) "count_members" then ret (VInt 7)
      else ret Sample.organization
  | _ => raise (Exc TypeError "object is not callable" None)
  end.
(** * Properties *)

(** ** The hash functions agree with the standard test vectors *)

Example sha256_abc :
  Hmac.hex (Sha256.digest (Py.encode "abc"))
  = "ba7816bf8f01cfea414140de5dae2223b00361a396177a9cb410ff61f20015ad"%string.
Proof. vm_compute. reflexivity. Qed.

Example sha256_two_blocks :
  Hmac.hex (Sha256.digest (replicate 100 Byte.x61))
  = "2816597888e4a0d3a36b82b83316ab32680eb8f00f8cd3b904d681246d285a0e"%string.
Proof. vm_compute. reflexivity. Qed.

Example hmac_long_key :
  Hmac.hexdigest (replicate 70 Byte.x6b) (Py.encode "msg")
  = "869b65e96f6aff0cfcb55ed40163b7d46e124a4213fa2232d61cca5e4a21256e"%string.
Proof. vm_compute. reflexivity. Qed.


(** ** Request authentication *)

Section Authenticator.

Lemma hex_digit_not_colon (n : Z) : Hmac.hex_digit n <> ":"%char.
Proof.
  unfold Hmac.hex_digit.
  generalize (Z.to_nat n) as k.
  do 16 (destruct k as [|k]; [discriminate|]).
  destruct k; discriminate.
Qed.

Lemma cut_hex (bs : list byte) : Py.cut ":" (Hmac.hex bs) = None.
Proof.
  induction bs as [|b bs IH]; [reflexivity|].
  cbn [Hmac.hex Py.cut].
  rewrite !(proj2 (Ascii.eqb_neq _ _)) by apply hex_digit_not_colon.
  now rewrite IH.
Qed.

Lemma rpc0_append (t : string) :
  "rpc0:" +:+ t = String "r" (String "p" (String "c" (String "0" (String ":" t)))).
Proof. reflexivity. Qed.

Lemma split_rpc0_hex (bs : list byte) :
  Py.split ":" 2 ("rpc0:" +:+ Hmac.hex bs) = ["rpc0"%string; Hmac.hex bs].
Proof.
  rewrite rpc0_append. cbn. rewrite cut_hex. reflexivity.
Qed.

Lemma compare_digest_refl (a : list byte) : Py.compare_digest a a = true.
Proof. unfold Py.compare_digest. now apply bool_decide_eq_true_2. Qed.

Lemma compare_signature_keys_member (keys : list string) (input : list byte) (s : string) :
  s ∈ keys ->
  compare_signature_keys keys input (Hmac.hexdigest (Py.encode s) input) = true.
Proof.
  induction 1 as [s keys|s k keys Hin IH]; cbn [compare_signature_keys].
  - now rewrite compare_digest_refl.
  - rewrite IH. now destruct (Py.compare_digest _ _).
Qed.

Lemma compare_signature_rpc0_tag (secrets : list string) (path : string)
    (body : list byte) (s : string) :
  s ∈ secrets ->
  compare_signature (with_secrets secrets) path body (rpc0_tag s path body) = Ok true.
Proof.
  intros Hin. unfold compare_signature, rpc0_tag. cbn [RPC_SHARED_SECRET with_secrets].
  destruct secrets as [|k ks]; [inversion Hin|].
  rewrite split_rpc0_hex.
  rewrite rpc0_append at 1. cbn [Py.startswith Ascii.eqb Bool.eqb andb negb].
  f_equal. now apply compare_signature_keys_member.
Qed.

Lemma generate_request_signature_first (secret : string) (others : list string)
    (path : string) (body : list byte) :
  generate_request_signature (with_secrets (secret :: others)) path body
  = Ok (rpc0_tag secret path body).
Proof. reflexivity. Qed.

End Authenticator.

(** C5. With a non-empty list of secrets, [generate_request_signature]
    returns exactly ["rpc0:"] followed by the lowercase hex digest of
    HMAC-SHA256, keyed by the secret at index 0, of [path + ":" + body]. *)
Theorem generate_request_signature_formula
    (secret : string) (others : list string) (path : string) (body : list byte) :
  generate_request_signature (with_secrets (secret :: others)) path body
  = Ok ("rpc0:" +:+
        Hmac.hex (Hmac.digest (Py.encode secret)
                    (Py.encode path ++ Py.encode ":" ++ body))).
Proof. reflexivity. Qed.

(** The scenario of the spec: secrets [["new"; "old"]], path ["/rpc/foo/bar"]
    and body [{"args":{}}]. *)
Example generate_request_signature_scenario :
  generate_request_signature (with_secrets ["new"; "old"]%string) "/rpc/foo/bar" scenario_body
  = Ok "rpc0:b75e943b6f257603dfcf593e08e750befb5b928d2abc8c712554180f6b9b8f30"%string.
Proof. vm_compute. reflexivity. Qed.

(** C2. A tag ["rpc0:" + hex(HMAC-SHA256(s, path + ":" + body))] made with
    any configured secret [s] is accepted by [compare_signature]; the tag
    that [generate_request_signature] returns is accepted; and a tag signed
    while [s] was at index 0 is still accepted by any configuration that
    keeps [s] somewhere in its list. *)
Theorem signature_rotation_round_trip
    (secrets : list string) (path : string) (body : list byte) (s : string) :
  s ∈ secrets ->
  compare_signature (with_secrets secrets) path body (rpc0_tag s path body) = Ok true
  /\ (forall tag,
        generate_request_signature (with_secrets secrets) path body = Ok tag ->
        compare_signature (with_secrets secrets) path body tag = Ok true)
  /\ (forall others tag,
        generate_request_signature (with_secrets (s :: others)) path body = Ok tag ->
        compare_signature (with_secrets secrets) path body tag = Ok true).
Proof.
  intros Hin. split; [|split].
  - now apply compare_signature_rpc0_tag.
  - intros tag Hgen. destruct secrets as [|k ks]; [inversion Hin|].
    rewrite generate_request_signature_first in Hgen. injection Hgen as <-.
    apply (compare_signature_rpc0_tag (k :: ks) path body k). left.
  - intros others tag Hgen.
    rewrite generate_request_signature_first in Hgen. injection Hgen as <-.
    now apply compare_signature_rpc0_tag.
Qed.

Lemma signature_rotation_round_trip_witness :
  "old"%string ∈ ["new"; "old"]%string
  /\ compare_signature (with_secrets ["new"; "old"]%string) "/rpc/foo/bar" scenario_body
       (rpc0_tag "old" "/rpc/foo/bar" scenario_body) = Ok true.
Proof.
  assert (H : "old"%string ∈ ["new"; "old"]%string) by (right; left).
  split; [exact H|].
  exact (proj1 (signature_rotation_round_trip _ "/rpc/foo/bar" scenario_body _ H)).
Defined.

(** C9 at its failing input: a tag with a second colon makes
    [compare_signature] raise [ValueError] instead of answering [False]. *)
Theorem compare_signature_raises_on_second_colon :
  compare_signature (with_secrets ["secret"%string]) "/rpc/foo/bar" scenario_body "rpc0:a:b"
  = Raise (Exc ValueError "too many values to unpack (expected 2)" None).
Proof. reflexivity. Qed.

Example str_int_status : Py.str_int 503 = "503"%string /\ Py.str_int 0 = "0"%string.
Proof. split; reflexivity. Qed.

(** ** Binding a contract to the topology *)

(** C4. [create_delegation] binds, for every mode, the local
    implementation exactly when the mode is the contract's [local_mode] or
    [MONOLITH], and the remote implementation otherwise; the kind bound is
    the same whatever the registry, the transport flag and the partial
    override are. *)
Theorem create_delegation_binding `{Pydantic} `{Process}
    (cls : RpcService) (home : SiloMode) (key : string)
    (use_test_client : option bool) (nonlocal_class : option Class) (w : World) :
  cls_local_mode (service_cls cls) = Some home ->
  cls_key (service_cls cls) = Some key ->
  exists service w',
    create_delegation cls use_test_client nonlocal_class w = (Ok service, w')
    /\ (forall mode,
          mode = home \/ mode = MONOLITH ->
          constructors service mode = get_and_validate_local_implementation
          /\ construct cls (constructors service mode)
             = _get_and_validate_local_implementation cls)
    /\ (forall mode,
          mode <> home -> mode <> MONOLITH ->
          constructors service mode
          = create_remote_implementation
              (default in_test_environment use_test_client) nonlocal_class
          /\ construct cls (constructors service mode)
             = _create_remote_implementation cls
                 (default in_test_environment use_test_client) nonlocal_class)
    /\ (forall mode,
          delegate_kind (constructors service mode) = LocalDelegate
          <-> (mode = home \/ mode = MONOLITH))
    /\ (forall use_test_client' nonlocal_class' w0 service0 w0',
          create_delegation cls use_test_client' nonlocal_class' w0 = (Ok service0, w0') ->
          forall mode,
            delegate_kind (constructors service0 mode)
            = delegate_kind (constructors service mode)).
Proof.
  intros Hhome Hkey.
  unfold create_delegation, bind, lift, get_key. rewrite Hhome, Hkey.
  eexists _, _. split; [reflexivity|]. cbn [constructors].
  assert (Hsel : forall mode,
            bool_decide (mode = MONOLITH) || bool_decide (mode = home) = true
            <-> (mode = home \/ mode = MONOLITH)).
  { intros mode. rewrite orb_true_iff, !bool_decide_eq_true. tauto. }
  split; [|split; [|split]].
  - intros mode Hm. apply Hsel in Hm. now rewrite Hm.
  - intros mode Hne1 Hne2.
    destruct (bool_decide (mode = MONOLITH) || bool_decide (mode = home)) eqn:E;
      [apply Hsel in E; tauto | split; reflexivity].
  - intros mode. split.
    + intros Hk. apply Hsel.
      destruct (bool_decide (mode = MONOLITH) || bool_decide (mode = home));
        [reflexivity | discriminate].
    + intros Hm. apply Hsel in Hm. now rewrite Hm.
  - intros u' n' w0 service0 w0' Hcd mode.
    unfold create_delegation, bind, lift, get_key in Hcd. rewrite ?Hhome, ?Hkey in Hcd.
    injection Hcd as Hs _. subst service0. cbn [constructors].
    destruct (bool_decide (mode = MONOLITH) || bool_decide (mode = home)); reflexivity.
Qed.

(** ** Contract declaration *)

Section Declaration.

Context `{Pydantic}.

Lemma create_field_string cls method p s :
  param_annotation p = AnnStr s ->
  exists e, create_field cls method p = Raise e
            /\ exc_cls e = RpcServiceSetupException.
Proof.
  intros Hp. unfold create_field. rewrite Hp. cbn. eauto.
Qed.

Lemma create_fields_string cls method params p s :
  p ∈ params -> param_annotation p = AnnStr s ->
  exists e, create_fields cls method params = Raise e.
Proof.
  induction params as [|q params IH]; intros Hin Hp.
  - inversion Hin.
  - cbn [create_fields].
    destruct (create_field cls method q) as [f|e] eqn:Eq; [|cbn; eauto].
    apply elem_of_cons in Hin as [->|Hin].
    + destruct (create_field_string cls method q s Hp) as (e & He & _). congruence.
    + destruct (IH Hin Hp) as (e & He). rewrite He. cbn. eauto.
Qed.

Lemma signature_init_string cls method :
  has_string_annotation method ->
  exists e, RpcMethodSignature_init cls method = Raise e.
Proof.
  intros [(p & s & Hin & Hp)|(s & Hr)]; unfold RpcMethodSignature_init.
  - unfold _create_parameter_model.
    destruct (create_fields_string cls method _ p s Hin Hp) as (e & He).
    rewrite He. cbn. eauto.
  - destruct (_create_parameter_model cls method) as [pm|e]; [|cbn; eauto].
    cbn [rbind]. unfold _create_return_model. rewrite Hr. cbn. eauto.
Qed.

Lemma create_signatures_loop_raises cls key methods table method :
  cls_key cls = Some key ->
  method ∈ methods ->
  (exists e, RpcMethodSignature_init cls method = Raise e) ->
  exists e, create_signatures_loop cls methods table = Raise e
            /\ exc_cls e = RpcServiceSetupException.
Proof.
  intros Hkey Hin (e0 & He0). revert table.
  induction methods as [|m methods IH]; intros table.
  - inversion Hin.
  - cbn [create_signatures_loop]. unfold get_key. rewrite Hkey. cbn [rbind].
    destruct (RpcMethodSignature_init cls m) as [sig|e] eqn:Em.
    + apply elem_of_cons in Hin as [->|Hin]; [congruence|]. now apply IH.
    + eexists. split; reflexivity.
Qed.

End Declaration.

(** C6. A class that declares an RPC method with a string as the
    annotation of a parameter or of the return value is refused when it is
    defined: [__init_subclass__] raises [RpcServiceSetupException], no
    signature is built for the method, and so no call can reach it. *)
Theorem string_annotation_rejected_at_declaration `{Pydantic}
    (cls : Class) (method : Method) :
  method ∈ _get_all_rpc_methods cls ->
  has_string_annotation method ->
  (exists e, RpcMethodSignature_init cls method = Raise e)
  /\ (exists e, __init_subclass__ cls = Raise e
                /\ exc_cls e = RpcServiceSetupException).
Proof.
  intros Hin Hstr.
  pose proof (signature_init_string cls method Hstr) as Hinit.
  split; [exact Hinit|].
  unfold __init_subclass__, _has_rpc_methods.
  destruct (_get_all_rpc_methods cls) as [|m ms] eqn:Eall; [inversion Hin|].
  destruct (cls_key cls) as [key|] eqn:Hkey; [|eexists; split; reflexivity].
  destruct (cls_local_mode cls); [|eexists; split; reflexivity].
  unfold _create_signatures. rewrite Eall.
  now apply (create_signatures_loop_raises cls key (m :: ms) ∅ method).
Qed.

Lemma create_delegation_binding_witness :
  cls_local_mode (service_cls Sample.organization_service) = Some REGION
  /\ cls_key (service_cls Sample.organization_service) = Some "organization"%string
  /\ exists service w',
       @create_delegation (Sample.answering VNone) Sample.organization_service None None
         Sample.empty_world = (Ok service, w')
       /\ delegate_kind (constructors service CONTROL) = RemoteDelegate
       /\ delegate_kind (constructors service REGION) = LocalDelegate
       /\ delegate_kind (constructors service MONOLITH) = LocalDelegate.
Proof.
  split; [reflexivity|]. split; [reflexivity|].
  destruct (@create_delegation_binding Sample.strict (Sample.answering VNone)
              Sample.organization_service REGION "organization" None None
              Sample.empty_world eq_refl eq_refl)
    as (service & w' & Hcd & Hlocal & Hremote & Hkind & _).
  exists service, w'. split; [exact Hcd|].
  split; [|split].
  - destruct (Hremote CONTROL ltac:(discriminate) ltac:(discriminate)) as [-> _].
    reflexivity.
  - apply Hkind. now left.
  - apply Hkind. now right.
Defined.

Lemma string_annotation_rejected_at_declaration_witness :
  string_annotated ∈ _get_all_rpc_methods StringAnnotatedService
  /\ has_string_annotation string_annotated
  /\ exists e, @__init_subclass__ Sample.strict StringAnnotatedService = Raise e
               /\ exc_cls e = RpcServiceSetupException.
Proof.
  assert (Hin : string_annotated ∈ _get_all_rpc_methods StringAnnotatedService)
    by (cbn; left).
  assert (Hstr : has_string_annotation string_annotated).
  { left. eexists _, _. split; [cbn; left | reflexivity]. }
  split; [exact Hin|]. split; [exact Hstr|].
  exact (proj2 (@string_annotation_rejected_at_declaration Sample.strict
                  StringAnnotatedService string_annotated Hin Hstr)).
Defined.

(** What the docstring of [_validate_type_token] says of a string nested in
    a type parameter: the declaration is accepted and the first use of the
    signature fails. *)
Example nested_string_annotation_deferred :
  exists sig,
    @RpcMethodSignature_init Sample.strict
      {| cls_name := "S"; cls_key := Some "s"; cls_local_mode := Some CONTROL;
         cls_attrs := [("g", nested_string_annotated)] |}
      nested_string_annotated = Ok sig
    /\ @serialize_arguments Sample.strict sig [("organization", VDict [])]
       = Raise forward_ref_not_prepared.
Proof. eexists. split; reflexivity. Qed.

(** ** Remote dispatch *)

Section SignatureFacts.

Context `{Pydantic}.

(** What a signature that was built records of its method. *)
Lemma signature_init_fields cls method sig :
  RpcMethodSignature_init cls method = Ok sig ->
  _base_service_cls sig = cls
  /\ _base_method sig = method
  /\ (cls_local_mode cls = Some REGION ->
      exists strategy, region_resolution method = Some strategy
                       /\ _region_resolution sig = Some strategy)
  /\ (return_annotation method = AnnNone -> _return_model sig = None).
Proof.
  unfold RpcMethodSignature_init. intros Hinit.
  destruct (_create_parameter_model cls method) as [pm|]; [|discriminate].
  cbn [rbind] in Hinit.
  destruct (_create_return_model cls method) as [rm|] eqn:Erm; [|discriminate].
  cbn [rbind] in Hinit.
  destruct (_extract_region_resolution cls method) as [rr|] eqn:Err; [|discriminate].
  cbn [rbind] in Hinit. injection Hinit as <-. cbn.
  split; [reflexivity|]. split; [reflexivity|]. split.
  - intros Hregion. unfold _extract_region_resolution in Err.
    rewrite (bool_decide_eq_true_2 _ Hregion) in Err. cbn in Err.
    destruct (region_resolution method) as [strategy|] eqn:Es.
    + rewrite bool_decide_eq_true_2 in Err by eauto. cbn in Err.
      injection Err as <-. eauto.
    + rewrite bool_decide_eq_false_2 in Err by (intros [? ?]; discriminate).
      discriminate.
  - intros Hnone. unfold _create_return_model in Erm. rewrite Hnone in Erm.
    now injection Erm as <-.
Qed.

End SignatureFacts.

(** C1. For a method of a region service declared with
    [regional_rpc_method(strategy, optional)], whose resolver raises
    [RegionMappingNotFound] on the arguments: when [optional] is set the
    remote method returns [None]; otherwise it raises
    [RpcServiceUnimplementedException] (the spec's [ServiceUnavailable]) caused
    by the resolver's exception.  In both cases the world, and with it
    the list of transport calls, is unchanged. *)
Theorem early_halt_law `{Pydantic} `{Process}
    (cls : RpcService) (strategy : RegionResolutionStrategy) (optional : bool)
    (method : Method) (signature : RpcMethodSignature) (use_test_client : bool)
    (kwargs : ArgumentDict) (e : exception) (w : World) :
  cls_local_mode (service_cls cls) = Some REGION ->
  RpcMethodSignature_init (service_cls cls)
    (regional_rpc_method strategy optional method) = Ok signature ->
  resolve strategy kwargs = Raise e ->
  exc_cls e = RegionMappingNotFound ->
  let outcome :=
    remote_method cls (dunder_name method) signature use_test_client kwargs w in
  transport_calls (snd outcome) = transport_calls w
  /\ snd outcome = w
  /\ (optional = true -> fst outcome = Ok VNone)
  /\ (optional = false ->
      exists e', fst outcome = Raise e'
                 /\ exc_cls e' = RpcServiceUnimplementedException
                 /\ exc_cause e' = Some e).
Proof.
  intros Hregion Hinit Hresolve Hcls.
  destruct (signature_init_fields _ _ _ Hinit) as (Hc & Hm & Hrr & _).
  destruct (Hrr Hregion) as (strategy' & Hs & Hsig).
  cbn in Hs. injection Hs as <-.
  assert (Hres : resolve_to_region signature kwargs
                 = if optional
                   then Ok {| region := None; is_early_halt := true |}
                   else Raise (RpcException RpcServiceUnimplementedException
                                 (service_name signature) (Some (method_name signature))
                                 "Error while resolving region" (Some e))).
  { unfold resolve_to_region. rewrite Hsig, Hresolve. cbn [rbind].
    rewrite (bool_decide_eq_true_2 _ Hcls), Hm. cbn.
    destruct optional; reflexivity. }
  cbv zeta. unfold remote_method, bind, lift.
  rewrite (bool_decide_eq_true_2 _ Hregion), Hres.
  destruct optional; cbn.
  - repeat split; intros; discriminate.
  - repeat split; try discriminate. intros _. eexists. repeat split.
Qed.

Lemma early_halt_law_witness :
  let P := Sample.answering VNone in
  let w := Sample.delegated P in
  (exists signature,
      _signatures Sample.organization_service !! "get_organization"%string = Some signature
      /\ @remote_method Sample.strict P Sample.organization_service "get_organization"
           signature false [("organization_id", VInt 2)] w = (Ok VNone, w))
  /\ (exists signature e',
         _signatures Sample.organization_service !! "count_members"%string = Some signature
         /\ @remote_method Sample.strict P Sample.organization_service "count_members"
              signature false [("organization_id", VInt 2)] w = (Raise e', w)
         /\ exc_cls e' = RpcServiceUnimplementedException).
Proof.
  intros P w. split.
  - eexists. split; [vm_compute; reflexivity|].
    pose proof (@early_halt_law Sample.strict P Sample.organization_service
                  Sample.by_organization_id true
                  (Sample.abstract_method "get_organization" [Sample.organization_id]
                     (AnnType (TOptional Sample.RpcOrganization)))
                  _ false [("organization_id", VInt 2)]
                  (Exc RegionMappingNotFound "" None) w
                  eq_refl eq_refl eq_refl eq_refl) as (_ & Hw & Hopt & _).
    apply injective_projections; [exact (Hopt eq_refl) | exact Hw].
  - pose proof (@early_halt_law Sample.strict P Sample.organization_service
                  Sample.by_organization_id false
                  (Sample.abstract_method "count_members" [Sample.organization_id]
                     (AnnType TInt))
                  _ false [("organization_id", VInt 2)]
                  (Exc RegionMappingNotFound "" None) w
                  eq_refl eq_refl eq_refl eq_refl) as (_ & Hw & _ & Hreq).
    destruct (Hreq eq_refl) as (e' & He' & Hcls & _).
    eexists _, e'. split; [vm_compute; reflexivity|].
    split; [|exact Hcls].
    apply injective_projections; [exact He' | exact Hw].
Defined.

Section ReturnValues.

Context `{Pydantic}.

Lemma deserialize_return_value_void sig :
  _return_model sig = None ->
  deserialize_return_value sig VNone = Ok VNone
  /\ (forall x, x <> VNone ->
        deserialize_return_value sig x
        = Raise (RpcException RpcResponseException (service_name sig)
                   (Some (method_name sig)) ("Expected None but got " +:+ type_repr x) None)).
Proof.
  intros Hvoid. unfold deserialize_return_value. rewrite Hvoid.
  split; [reflexivity|]. intros x Hx. destruct x; congruence.
Qed.

End ReturnValues.

(** C8. For a method declared with the return annotation [None]: when
    the response envelope carries a value that is not [None], [dispatch]
    raises [RpcResponseException]; and [deserialize_return_value] of such a
    method returns only for [None], and then [None]. *)
Theorem void_return_contract `{Pydantic} `{Process}
    (cls : Class) (method : Method) (sig : RpcMethodSignature)
    (self : _RemoteSiloCall) (use_test_client : bool) (w w1 w2 : World)
    (entries : list (string * value)) (v : value)
    (service : DelegatingRpcService) (found : Attribute) :
  RpcMethodSignature_init cls method = Ok sig ->
  return_annotation method = AnnNone ->
  _send_to_remote_silo self use_test_client w = (Ok (VDict entries), w1) ->
  dict_get "value" entries = Some v ->
  v <> VNone ->
  _look_up_service_method (call_service_name self) (call_method_name self) w1
  = (Ok (service, found), w2) ->
  signatures service !! call_method_name self = Some sig ->
  (exists e, dispatch self use_test_client w = (Raise e, w2)
             /\ exc_cls e = RpcResponseException)
  /\ (forall x r, deserialize_return_value sig x = Ok r -> x = VNone /\ r = VNone)
  /\ deserialize_return_value sig VNone = Ok VNone.
Proof.
  intros Hinit Hvoid Hsend Hvalue Hv Hlookup Hsig.
  destruct (signature_init_fields _ _ _ Hinit) as (_ & _ & _ & Hrm).
  destruct (deserialize_return_value_void sig (Hrm Hvoid)) as (Hnone & Hother).
  split; [|split; [|exact Hnone]].
  - unfold dispatch, bind, lift. rewrite Hsend. cbn [subscript_value].
    rewrite Hvalue, Hlookup. cbn [fst].
    unfold deserialize_rpc_response. rewrite Hsig, (Hother v Hv).
    eexists. split; [destruct v; try reflexivity; congruence | reflexivity].
  - intros x r Hx.
    assert (Hcase : x = VNone \/ x <> VNone) by (destruct x; auto; right; discriminate).
    destruct Hcase as [->|Hne].
    + rewrite Hnone in Hx. now injection Hx as <-.
    + rewrite (Hother x Hne) in Hx. discriminate.
Qed.

(** C10. When the envelope of a 200 response carries [None] as its value
    and the service method is found in the registry, [dispatch] returns
    [None], whatever signatures the service holds: the return model is not
    consulted. *)
Theorem null_value_bypasses_return_schema `{Pydantic} `{Process}
    (self : _RemoteSiloCall) (use_test_client : bool) (w w1 w2 : World)
    (entries : list (string * value))
    (service : DelegatingRpcService) (found : Attribute) :
  _send_to_remote_silo self use_test_client w = (Ok (VDict entries), w1) ->
  dict_get "value" entries = Some VNone ->
  _look_up_service_method (call_service_name self) (call_method_name self) w1
  = (Ok (service, found), w2) ->
  dispatch self use_test_client w = (Ok VNone, w2).
Proof.
  intros Hsend Hvalue Hlookup.
  unfold dispatch, bind, lift. rewrite Hsend. cbn [subscript_value].
  rewrite Hvalue, Hlookup. reflexivity.
Qed.

Lemma void_return_contract_witness :
  let P := Sample.answering (VInt 7) in
  let self := sample_call "update_organization" [("organization_id", VInt 1)] in
  exists e, @dispatch Sample.strict P self false (Sample.delegated P)
            = (Raise e, snd (@dispatch Sample.strict P self false (Sample.delegated P)))
            /\ exc_cls e = RpcResponseException.
Proof.
  intros P self.
  set (w := Sample.delegated P).
  set (w1 := snd (@_send_to_remote_silo P self false w)).
  set (found := @_look_up_service_method Sample.strict P "organization" "update_organization" w1).
  destruct (fst found) as [[service method]|] eqn:Efound; [|vm_compute in Efound; discriminate].
  assert (Hsig : exists sig, signatures service !! "update_organization"%string = Some sig
                             /\ @RpcMethodSignature_init Sample.strict Sample.OrganizationService
                                  Sample.update_organization = Ok sig).
  { vm_compute in Efound. injection Efound as <- _. eexists. split; vm_compute; reflexivity. }
  destruct Hsig as (sig & Hsig & Hinit).
  destruct (@void_return_contract Sample.strict P Sample.OrganizationService
              Sample.update_organization sig self false w w1 (snd found)
              [("meta", VDict []); ("value", VInt 7)] (VInt 7) service method
              Hinit eq_refl)
    as ((e & He & Hcls) & _).
  - apply injective_projections; [vm_compute; reflexivity | reflexivity].
  - reflexivity.
  - discriminate.
  - apply injective_projections; [exact Efound | reflexivity].
  - exact Hsig.
  - exists e. split; [|exact Hcls]. rewrite He. reflexivity.
Defined.

(** The return model of [count_members], declared [-> int], refuses
    [None]: had [dispatch] consulted it for a null value, it would have
    raised. *)
Example count_members_return_model_refuses_none :
  exists sig,
    @RpcMethodSignature_init Sample.strict Sample.OrganizationService Sample.count_members
    = Ok sig
    /\ @deserialize_return_value Sample.strict sig VNone = Raise none_not_allowed.
Proof. eexists. split; reflexivity. Qed.

Lemma null_value_bypasses_return_schema_witness :
  let P := Sample.answering VNone in
  let self := sample_call "count_members" [("organization_id", VInt 1)] in
  fst (@dispatch Sample.strict P self false (Sample.delegated P)) = Ok VNone.
Proof.
  intros P self.
  set (w := Sample.delegated P).
  set (w1 := snd (@_send_to_remote_silo P self false w)).
  set (found := @_look_up_service_method Sample.strict P "organization" "count_members" w1).
  destruct (fst found) as [[service method]|] eqn:Efound; [|vm_compute in Efound; discriminate].
  rewrite (@null_value_bypasses_return_schema Sample.strict P self false w w1 (snd found)
             [("meta", VDict []); ("value", VNone)] service method).
  - reflexivity.
  - apply injective_projections; [vm_compute; reflexivity | reflexivity].
  - reflexivity.
  - apply injective_projections; [exact Efound | reflexivity].
Defined.

(** ** Partial overrides *)

Section Overrides.

Context `{Pydantic}.

Lemma lookup_set_attr_eq name m attrs :
  lookup_attr name (set_attr name m attrs) = Some m.
Proof.
  induction attrs as [|[n m'] attrs IH]; cbn.
  - now rewrite String.eqb_refl.
  - destruct (String.compare name n) eqn:E; cbn.
    + now rewrite String.eqb_refl.
    + now rewrite String.eqb_refl.
    + destruct (String.eqb n name) eqn:En; [|exact IH].
      apply String.eqb_eq in En. subst n.
      pose proof (String.compare_antisym name name) as Ha.
      rewrite E in Ha. discriminate.
Qed.

Lemma lookup_set_attr_ne name other m attrs :
  other <> name ->
  lookup_attr other (set_attr name m attrs) = lookup_attr other attrs.
Proof.
  intros Hne. induction attrs as [|[n m'] attrs IH]; cbn.
  - now rewrite (proj2 (String.eqb_neq name other)) by congruence.
  - destruct (String.compare name n) eqn:E; cbn.
    + apply String.compare_eq_iff in E. subst n.
      now rewrite (proj2 (String.eqb_neq name other)) by congruence.
    + now rewrite (proj2 (String.eqb_neq name other)) by congruence.
    + destruct (String.eqb n other); [reflexivity | exact IH].
Qed.

Lemma lookup_type_new use_test_client name base overrides n :
  remote_entries use_test_client overrides ->
  lookup_attr n (cls_attrs (type_new name base overrides))
  = if bool_decide (n ∈ map fst overrides)
    then Some (remote_method_function n use_test_client)
    else lookup_attr n (cls_attrs base).
Proof.
  unfold type_new. cbn [cls_attrs]. generalize (cls_attrs base) as attrs.
  induction overrides as [|[k m] overrides IH]; intros attrs Hrem.
  - reflexivity.
  - inversion Hrem as [|? ? Hm Hrest]; subst. cbn in Hm. subst m.
    cbn [fold_left map fst snd]. rewrite (IH _ Hrest).
    destruct (bool_decide (n ∈ map fst overrides)) eqn:Ein.
    + apply bool_decide_eq_true in Ein.
      rewrite bool_decide_eq_true_2 by (now right). reflexivity.
    + apply bool_decide_eq_false in Ein.
      destruct (String.eqb_spec n k) as [->|Hne].
      * rewrite bool_decide_eq_true_2 by left. apply lookup_set_attr_eq.
      * rewrite bool_decide_eq_false_2
          by (intros Hc; apply elem_of_cons in Hc as [?|?]; tauto).
        now apply lookup_set_attr_ne.
Qed.

Lemma dict_set_keys name m d k :
  k ∈ map fst (dict_set name m d) <-> k = name \/ k ∈ map fst d.
Proof.
  induction d as [|[n m'] d IH]; cbn.
  - rewrite elem_of_cons. tauto.
  - destruct (String.eqb_spec n name) as [->|Hne]; cbn.
    + rewrite !elem_of_cons. tauto.
    + rewrite !elem_of_cons, IH. tauto.
Qed.

Lemma dict_set_remote_entries use_test_client name d :
  remote_entries use_test_client d ->
  remote_entries use_test_client
    (dict_set name (remote_method_function name use_test_client) d).
Proof.
  unfold remote_entries. induction d as [|[n m'] d IH]; intros Hd; cbn.
  - now repeat constructor.
  - inversion Hd as [|? ? Hm Hrest]; subst.
    destruct (String.eqb_spec n name) as [->|Hne].
    + now constructor.
    + constructor; [exact Hm | now apply IH].
Qed.

(** The keys of [rpc_overrides] are the names of the abstract RPC methods
    that the partial override leaves abstract. *)
Lemma rpc_overrides_loop_spec cls use_test_client nonlocal_class methods acc overrides :
  rpc_overrides_loop cls use_test_client (Some nonlocal_class) methods acc = Ok overrides ->
  remote_entries use_test_client acc ->
  remote_entries use_test_client overrides
  /\ (forall k,
        k ∈ map fst overrides
        <-> k ∈ map fst acc
            \/ exists m nm, m ∈ methods /\ dunder_name m = k
                            /\ getattr nonlocal_class k = Ok nm
                            /\ isabstractmethod nm = true)
  /\ (forall m, m ∈ methods -> exists nm, getattr nonlocal_class (dunder_name m) = Ok nm).
Proof.
  revert acc. induction methods as [|m methods IH]; intros acc Hloop Hacc.
  - cbn in Hloop. injection Hloop as <-. split; [exact Hacc|]. split.
    + intros k. split; [auto|]. intros [?|(m & nm & Hin & _)]; [auto|inversion Hin].
    + intros m Hin. inversion Hin.
  - cbn [rpc_overrides_loop should_generate_remote_method] in Hloop.
    destruct (getattr nonlocal_class (dunder_name m)) as [nm|] eqn:Enm; [|discriminate].
    cbn [rbind] in Hloop. unfold _is_abstract_method in Hloop.
    destruct (isabstractmethod nm) eqn:Eabs.
    + unfold create_remote_method in Hloop.
      destruct (_signatures cls !! dunder_name m); [|discriminate].
      cbn [rbind] in Hloop.
      destruct (IH _ Hloop (dict_set_remote_entries _ _ _ Hacc)) as (Hrem & Hkeys & Hget).
      split; [exact Hrem|]. split.
      * intros k. rewrite Hkeys, dict_set_keys. split.
        -- intros [[->|Hk]|(m' & nm' & Hin & Hrest)]; [right|left|right].
           ++ exists m, nm. split; [left|auto].
           ++ exact Hk.
           ++ exists m', nm'. split; [now right | exact Hrest].
        -- intros [Hk|(m' & nm' & Hin & Hname & Hrest)]; [auto|].
           apply elem_of_cons in Hin as [->|Hin]; [auto|].
           right. exists m', nm'. auto.
      * intros m' Hin. apply elem_of_cons in Hin as [->|Hin]; [eauto | auto].
    + destruct (IH _ Hloop Hacc) as (Hrem & Hkeys & Hget).
      split; [exact Hrem|]. split.
      * intros k. rewrite Hkeys. split.
        -- intros [Hk|(m' & nm' & Hin & Hrest)]; [auto|].
           right. exists m', nm'. split; [now right | exact Hrest].
        -- intros [Hk|(m' & nm' & Hin & Hname & Hg & Ha)]; [auto|].
           apply elem_of_cons in Hin as [->|Hin].
           ++ subst k. congruence.
           ++ right. exists m', nm'. auto.
      * intros m' Hin. apply elem_of_cons in Hin as [->|Hin]; [eauto | auto].
Qed.

Lemma instantiate_ok cls obj : instantiate cls = Ok obj -> obj = cls.
Proof.
  unfold instantiate. destruct (forallb _ _); [|discriminate]. now intros [= <-].
Qed.

End Overrides.



(** ** Argument round trip *)

Section RoundTrip.

Context `{Pydantic}.

(** Induction on type tokens that reaches the field types of a model. *)
Lemma type_token_nested_ind (P : type_token -> Prop) :
  P TNone -> P TBool -> P TInt -> P TFloat -> P TStr ->
  (forall t, P t -> P (TOptional t)) ->
  (forall t, P t -> P (TList t)) ->
  (forall cls fields, Forall (fun f => P (snd f)) fields -> P (TModel cls fields)) ->
  (forall name, P (TForwardRef name)) ->
  (forall name, P (TOther name)) ->
  forall t, P t.
Proof.
  intros HNone HBool HInt HFloat HStr HOpt HList HModel HRef HOther.
  fix IH 1. intros [| | | | |t|t|cls fields|name|name].
  - exact HNone.
  - exact HBool.
  - exact HInt.
  - exact HFloat.
  - exact HStr.
  - apply HOpt, IH.
  - apply HList, IH.
  - apply HModel. induction fields as [|[k ft] fields IHf]; constructor.
    + apply IH.
    + exact IHf.
  - apply HRef.
  - apply HOther.
Qed.

Lemma gather_map_ok {A B} (f : A -> result B) (g : A -> B) (l : list A) :
  Forall (fun a => f a = Ok (g a)) l ->
  gather (map f l) = Ok (map g l).
Proof.
  induction 1 as [|a l Ha _ IH]; [reflexivity|].
  cbn. rewrite Ha, IH. reflexivity.
Qed.

Lemma to_dict_none v : to_dict v = VNone -> v = VNone.
Proof. destruct v; cbn; congruence. Qed.

Lemma validate_optional t x : x <> VNone -> validate (TOptional t) x = validate t x.
Proof. destruct x; [congruence | reflexivity..]. Qed.

(** A declared field is found in the dict of the instance. *)
Lemma dict_get_to_dict (values : list (string * value)) (k : string) (x : value) :
  NoDup (map fst values) ->
  (k, x) ∈ values ->
  dict_get k (map (fun kv => (fst kv, to_dict (snd kv))) values) = Some (to_dict x).
Proof.
  induction values as [|[k' x'] values IH]; intros Hnd Hin; [inversion Hin|].
  cbn in Hnd. apply NoDup_cons in Hnd as [Hnotin Hnd]. cbn.
  apply elem_of_cons in Hin as [Heq|Hin].
  - injection Heq as -> ->. now rewrite String.eqb_refl.
  - destruct (String.eqb_spec k' k) as [->|Hne]; [|auto].
    exfalso. apply Hnotin. apply list_elem_of_In. apply list_elem_of_In in Hin.
    exact (in_map fst _ _ Hin).
Qed.

(** The heart of the round trip: a value of the declared type is kept
    by validation, and is rebuilt from its dict form. *)
Lemma validate_round_trip (t : type_token) :
  forall v, check_type t v = true ->
            validate t v = Ok v /\ validate t (to_dict v) = Ok v.
Proof.
  induction t as [| | | | |t IH|t IH|cls fields IH|name|name] using type_token_nested_ind;
    intros v Hv.
  - destruct v; try discriminate. now split.
  - destruct v; try discriminate. now split.
  - destruct v; try discriminate. now split.
  - destruct v; try discriminate. now split.
  - destruct v; try discriminate. now split.
  - assert (Hcase : v = VNone \/ v <> VNone) by (destruct v; auto; right; discriminate).
    destruct Hcase as [->|Hne]; [now split|].
    assert (Hv' : check_type t v = true) by (destruct v; try exact Hv; congruence).
    destruct (IH _ Hv') as [H1 H2].
    rewrite !validate_optional by (try intros E%to_dict_none; congruence).
    now split.
  - destruct v; try discriminate. cbn [check_type] in Hv.
    rewrite forallb_forall in Hv.
    assert (Hall : Forall (fun x => validate t x = Ok x /\ validate t (to_dict x) = Ok x) items).
    { apply Forall_forall. intros x Hx. apply IH, Hv. now apply list_elem_of_In. }
    cbn [validate to_dict]. split.
    + rewrite (gather_map_ok _ (fun x => x)).
      * cbn. now rewrite map_id.
      * eapply Forall_impl; [exact Hall|]. now intros x [? ?].
    + rewrite map_map. rewrite (gather_map_ok _ (fun x => x)).
      * cbn. now rewrite map_id.
      * eapply Forall_impl; [exact Hall|]. now intros x [? ?].
  - destruct v as [| | | | | | |cls' values]; try discriminate.
    cbn [check_type] in Hv.
    apply andb_true_iff in Hv as [Hv Heach].
    apply andb_true_iff in Hv as [Hcls Hnd].
    apply String.eqb_eq in Hcls. subst cls'.
    apply bool_decide_eq_true in Hnd.
    cbn [validate to_dict]. rewrite String.eqb_refl. split; [reflexivity|].
    set (d := map (fun kv => (fst kv, to_dict (snd kv))) values).
    assert (Hd : forall k x, (k, x) ∈ values -> dict_get k d = Some (to_dict x)).
    { assert (Hkeys : map fst values = map fst fields).
      { clear -Heach. revert values Heach.
        induction fields as [|[k ft] fields IHf]; intros [|[k' x] values] Heach;
          try discriminate; [reflexivity|].
        apply andb_true_iff in Heach as [Hh Heach].
        apply andb_true_iff in Hh as [Hk _]. apply String.eqb_eq in Hk. subst k'.
        cbn. f_equal. now apply IHf. }
      intros k x Hin. apply dict_get_to_dict; [now rewrite Hkeys | exact Hin]. }
    clearbody d. clear Hnd.
    enough (Hgo : forall vals, (forall k x, (k, x) ∈ vals -> dict_get k d = Some (to_dict x)) ->
              (fix each (fields0 : list (string * type_token))
                        (values0 : list (string * value)) : bool :=
                 match fields0, values0 with
                 | [], [] => true
                 | (k, ft) :: fields', (k', x) :: values' =>
                     String.eqb k' k && check_type ft x && each fields' values'
                 | _, _ => false
                 end) fields vals = true ->
              exists xs,
                gather
                  ((fix each (fields0 : list (string * type_token)) : list (result value) :=
                      match fields0 with
                      | [] => []
                      | (k, ft) :: fields' =>
                          match dict_get k d with
                          | Some x => validate ft x
                          | None => Raise field_required
                          end :: each fields'
                      end) fields) = Ok xs
                /\ zip (map fst fields) xs = vals).
    { destruct (Hgo values Hd Heach) as (xs & Hg & Hz). rewrite Hg. cbn. now rewrite Hz. }
    clear Hd Heach values.
    induction IH as [|[k ft] fields Hft _ IHf]; intros [|[k' x] vals] Hd Heach;
      try discriminate.
    + exists []. now split.
    + apply andb_true_iff in Heach as [Hh Heach].
      apply andb_true_iff in Hh as [Hk Hx]. apply String.eqb_eq in Hk. subst k'.
      destruct (IHf vals) as (xs & Hg & Hz); [|exact Heach|].
      { intros k0 x0 Hin. apply Hd. now right. }
      exists (x :: xs). rewrite (Hd k x) by left.
      cbn [snd] in Hft. destruct (Hft x Hx) as [_ ->].
      cbn [gather]. rewrite Hg. cbn. now rewrite Hz.
  - discriminate.
  - discriminate.
Qed.

Lemma field_satisfied_value args f :
  field_satisfied args f = true -> check_field f (argument_or_default args f) = true.
Proof.
  unfold field_satisfied, argument_or_default.
  destruct (dict_get (field_name f) args); [auto|].
  destruct (field_default f); [auto | discriminate].
Qed.

Lemma validate_field_lookup input f v :
  dict_get (field_name f) input = Some v ->
  validate_field input f
  = if is_none v
    then (if field_allow_none f then Ok VNone else validate (field_type f) VNone)
    else validate (field_type f) v.
Proof. intros Hget. unfold validate_field. rewrite Hget. now destruct v. Qed.

Lemma validate_checked_field f x :
  check_field f x = true ->
  (if is_none x
   then (if field_allow_none f then Ok VNone else validate (field_type f) VNone)
   else validate (field_type f) x) = Ok x
  /\ (if is_none (to_dict x)
      then (if field_allow_none f then Ok VNone else validate (field_type f) VNone)
      else validate (field_type f) (to_dict x)) = Ok x.
Proof.
  unfold check_field, field_allow_none. intros Hx.
  destruct (is_none x) eqn:En.
  - destruct x; try discriminate. cbn [to_dict is_none].
    destruct (field_default f) as [[]|]; cbn in Hx; rewrite ?orb_false_r in Hx;
      try (now split);
      destruct (validate_round_trip _ _ Hx) as [-> _]; now split.
  - rewrite andb_false_l, orb_false_r in Hx.
    destruct (validate_round_trip _ _ Hx) as [H1 H2].
    assert (Hd : is_none (to_dict x) = false) by (destruct x; auto).
    now rewrite Hd.
Qed.

Lemma validate_field_argument args f :
  field_satisfied args f = true ->
  validate_field args f = Ok (argument_or_default args f).
Proof.
  intros Hsat. pose proof (field_satisfied_value _ _ Hsat) as Hx.
  unfold field_satisfied in Hsat. unfold argument_or_default in *.
  destruct (dict_get (field_name f) args) as [v|] eqn:Eget.
  - rewrite (validate_field_lookup _ _ _ Eget).
    now destruct (validate_checked_field f v Hx).
  - unfold validate_field. rewrite Eget.
    destruct (field_default f); [reflexivity | discriminate].
Qed.

Lemma zip_map_fields {A B} (g : FieldDef -> A) (h : FieldDef -> B) (fields : list FieldDef) :
  zip (map g fields) (map h fields) = map (fun f => (g f, h f)) fields.
Proof. induction fields; cbn; congruence. Qed.

Lemma model_validate_arguments m args :
  forallb (field_satisfied args) (model_fields m) = true ->
  model_validate m args
  = Ok (VModel (model_name m) (complete_with_defaults (model_fields m) args)).
Proof.
  intros Hall. unfold model_validate.
  rewrite (gather_map_ok _ (argument_or_default args)).
  - cbn. now rewrite zip_map_fields.
  - apply Forall_forall. intros f Hf. apply validate_field_argument.
    rewrite forallb_forall in Hall. apply Hall. now apply list_elem_of_In.
Qed.

Lemma model_validate_dict m args :
  check_schema m = true ->
  forallb (field_satisfied args) (model_fields m) = true ->
  model_validate m
    (model_dict (VModel (model_name m) (complete_with_defaults (model_fields m) args)))
  = Ok (VModel (model_name m) (complete_with_defaults (model_fields m) args)).
Proof.
  intros Hschema Hall. unfold check_schema in Hschema.
  apply bool_decide_eq_true in Hschema.
  unfold model_validate, model_dict. cbn [dunder_dict].
  rewrite (gather_map_ok _ (argument_or_default args)).
  - cbn. now rewrite zip_map_fields.
  - apply Forall_forall. intros f Hf.
    rewrite (validate_field_lookup _ _ (to_dict (argument_or_default args f))).
    + apply validate_checked_field, field_satisfied_value.
      rewrite forallb_forall in Hall. apply Hall. now apply list_elem_of_In.
    + apply dict_get_to_dict.
      * unfold complete_with_defaults. now rewrite map_map.
      * unfold complete_with_defaults. apply list_elem_of_In.
        apply (in_map (fun f => (field_name f, argument_or_default args f))).
        now apply list_elem_of_In.
Qed.

Lemma dict_get_complete fields args k :
  dict_get k (complete_with_defaults fields args)
  = match find (fun f => String.eqb (field_name f) k) fields with
    | Some f => Some (argument_or_default args f)
    | None => None
    end.
Proof.
  induction fields as [|f fields IH]; [reflexivity|].
  cbn. destruct (String.eqb (field_name f) k); [reflexivity | exact IH].
Qed.

End RoundTrip.

Section Rebuilt.

Context `{Pydantic}.

Lemma gather_cons_ok {A} (r : result A) (rs : list (result A)) (l : list A) :
  gather (r :: rs) = Ok l ->
  exists a l', r = Ok a /\ gather rs = Ok l' /\ l = a :: l'.
Proof.
  cbn. destruct r as [a|e].
  - destruct (gather rs) as [l'|e]; [|discriminate].
    intros [= <-]. now exists a, l'.
  - destruct (is_validation_error e); [|discriminate].
    destruct (gather rs) as [l'|e']; [discriminate|].
    now destruct (is_validation_error e').
Qed.

Lemma gather_map_Forall2 {A B} (f : A -> result B) (l : list A) (xs : list B) :
  gather (map f l) = Ok xs <-> Forall2 (fun a x => f a = Ok x) l xs.
Proof.
  revert xs. induction l as [|a l IH]; intros xs; cbn [map].
  - split.
    + intros [= <-]. constructor.
    + intros Hall. inversion Hall. reflexivity.
  - split.
    + intros Hg. apply gather_cons_ok in Hg as (x & xs' & Hx & Hg & ->).
      constructor; [exact Hx | now apply IH].
    + intros Hall. inversion Hall as [|? x ? xs' Hx Hrest]; subst.
      apply IH in Hrest. cbn. now rewrite Hx, Hrest.
Qed.

Lemma check_instances_optional t v : check_instances (TOptional t) v = check_instances t v.
Proof. reflexivity. Qed.

Lemma dict_get_zip (names : list string) (xs : list value) (k : string) (x : value) :
  NoDup names ->
  (k, x) ∈ zip names xs ->
  dict_get k (map (fun kv => (fst kv, to_dict (snd kv))) (zip names xs)) = Some (to_dict x).
Proof.
  intros Hnd Hin. apply dict_get_to_dict; [|exact Hin].
  clear Hin. revert xs. induction Hnd as [|n names Hn Hnd IH]; intros [|x' xs]; cbn;
    try constructor.
  - intros Hin. apply Hn. clear -Hin. revert xs Hin.
    induction names as [|n' names IHn]; intros [|y ys] Hin; cbn in Hin;
      try (now inversion Hin).
    apply elem_of_cons in Hin as [->|Hin]; [left | right; eauto].
  - apply IH.
Qed.

Hypothesis Hlib : conversions_rebuilt.

(** What validation returns is rebuilt from its dict form. *)
Lemma validate_rebuilds (t : type_token) :
  check_token t = true ->
  forall v x, check_instances t v = true -> validate t v = Ok x ->
              validate t (to_dict x) = Ok x.
Proof.
  induction t as [| | | | |t IH|t IH|cls fields IH|name|name] using type_token_nested_ind;
    intros Ht v x Hv Hx.
  - destruct v; cbn in Hx; try (exact (Hlib _ _ _ Hx)). now injection Hx as <-.
  - destruct v; cbn in Hx; try discriminate; try (exact (Hlib _ _ _ Hx)).
    now injection Hx as <-.
  - destruct v; cbn in Hx; try discriminate; try (exact (Hlib _ _ _ Hx)).
    now injection Hx as <-.
  - destruct v; cbn in Hx; try discriminate; try (exact (Hlib _ _ _ Hx)).
    now injection Hx as <-.
  - destruct v; cbn in Hx; try discriminate; try (exact (Hlib _ _ _ Hx)).
    now injection Hx as <-.
  - assert (Hcase : v = VNone \/ v <> VNone) by (destruct v; auto; right; discriminate).
    destruct Hcase as [->|Hne]; [cbn in Hx; now injection Hx as <-|].
    rewrite validate_optional in Hx by exact Hne.
    pose proof (IH Ht v x Hv Hx) as Hr.
    assert (Hcase : to_dict x = VNone \/ to_dict x <> VNone)
      by (destruct (to_dict x); auto; right; discriminate).
    destruct Hcase as [Hn|Hn].
    + rewrite Hn. apply to_dict_none in Hn. now subst x.
    + now rewrite validate_optional.
  - destruct v as [| | | | |items| |]; cbn [validate] in Hx; try discriminate;
      try (exact (Hlib _ _ _ Hx)).
    destruct (gather (map (validate t) items)) as [items'|] eqn:Eg; [|discriminate].
    cbn in Hx. injection Hx as <-. cbn [to_dict validate]. rewrite map_map.
    cbn [check_instances] in Hv. rewrite forallb_forall in Hv.
    apply gather_map_Forall2 in Eg.
    assert (Hg : gather (map (fun x => validate t (to_dict x)) items') = Ok items').
    { clear -Eg Hv IH Ht. induction Eg as [|a x l xs Hax _ IHl]; [reflexivity|].
      cbn [map]. rewrite (IH Ht a x); [|apply Hv; now left | exact Hax].
      cbn. rewrite IHl; [reflexivity|]. intros y Hy. apply Hv. now right. }
    now rewrite Hg.
  - cbn [check_token] in Ht. apply andb_true_iff in Ht as [Hnd Ht].
    apply bool_decide_eq_true in Hnd.
    destruct v as [| | | | | |entries|cls' values]; cbn [validate] in Hx; try discriminate;
      try (exact (Hlib _ _ _ Hx)).
    + (* a dict *)
      match type of Hx with
      | (let? values := gather ?rs in _) = _ =>
          destruct (gather rs) as [values|] eqn:Eg; [|discriminate]
      end.
      cbn in Hx. injection Hx as <-. cbn [to_dict validate].
      set (d := map (fun kv => (fst kv, to_dict (snd kv))) (zip (map fst fields) values)).
      assert (Hd : forall k x, (k, x) ∈ zip (map fst fields) values ->
                               dict_get k d = Some (to_dict x))
        by (intros k x Hin; now apply dict_get_zip).
      clearbody d. cbn [check_instances] in Hv.
      enough (Hgo : gather
                ((fix each (fields0 : list (string * type_token)) : list (result value) :=
                    match fields0 with
                    | [] => []
                    | (k, ft) :: fields' =>
                        match dict_get k d with
                        | Some x => validate ft x
                        | None => Raise field_required
                        end :: each fields'
                    end) fields) = Ok values) by now rewrite Hgo.
      clear Hnd. revert values Eg Hd.
      induction IH as [|[k ft] fields Hft _ IHf]; intros values Eg Hd.
      * exact Eg.
      * apply gather_cons_ok in Eg as (x0 & xs & Hx0 & Eg & ->).
        apply andb_true_iff in Ht as [Hft0 Ht].
        apply andb_true_iff in Hv as [Hv0 Hv].
        destruct (dict_get k entries) as [e|] eqn:Ee; [|discriminate].
        cbn [snd] in Hft.
        rewrite (Hd k x0) by (cbn; left).
        rewrite (Hft Hft0 e x0 Hv0 Hx0).
        cbn [gather]. rewrite (IHf Ht Hv xs Eg); [reflexivity|].
        intros k' x' Hin. apply Hd. cbn. now right.
    + (* an instance *)
      destruct (String.eqb cls' cls) eqn:Ecls; [|exact (Hlib _ _ _ Hx)].
      injection Hx as <-. cbn [check_instances] in Hv. rewrite Ecls in Hv.
      cbn [negb orb] in Hv.
      now destruct (validate_round_trip _ _ Hv).
  - discriminate.
  - exact (Hlib _ _ _ Hx).
Qed.

Lemma validate_field_rebuilds (f : FieldDef) (args input : list (string * value)) (x : value) :
  check_token (field_type f) = true ->
  match dict_get (field_name f) args with
  | Some v => check_instances (field_type f) v = true
  | None =>
      forall d, field_default f = Some d ->
                validate_field [(field_name f, to_dict d)] f = Ok d
  end ->
  validate_field args f = Ok x ->
  dict_get (field_name f) input = Some (to_dict x) ->
  validate_field input f = Ok x.
Proof.
  intros Ht Hgiven Hx Hinput.
  rewrite (validate_field_lookup _ _ _ Hinput).
  destruct (dict_get (field_name f) args) as [v|] eqn:Eget.
  - rewrite (validate_field_lookup _ _ _ Eget) in Hx.
    destruct (is_none v) eqn:Ev.
    + destruct v; try discriminate.
      destruct (field_allow_none f) eqn:Ea.
      * injection Hx as <-. reflexivity.
      * pose proof (validate_rebuilds _ Ht _ _ Hgiven Hx) as Hr.
        destruct (is_none (to_dict x)) eqn:Ed; [|exact Hr].
        exact Hx.
    + assert (Hne : match v with VNone => False | _ => True end) by (now destruct v).
      pose proof (validate_rebuilds _ Ht _ _ Hgiven Hx) as Hr.
      destruct (is_none (to_dict x)) eqn:Ed; [|exact Hr].
      assert (Hnone : to_dict x = VNone) by (destruct (to_dict x); try discriminate; reflexivity).
      rewrite Hnone in Hr. pose proof (to_dict_none _ Hnone) as ->.
      now destruct (field_allow_none f).
  - unfold validate_field in Hx. rewrite Eget in Hx.
    destruct (field_default f) as [d|] eqn:Ed; [|discriminate].
    injection Hx as <-. specialize (Hgiven d eq_refl).
    rewrite (validate_field_lookup _ _ (to_dict d)) in Hgiven; [exact Hgiven|].
    cbn. now rewrite String.eqb_refl.
Qed.

Lemma Forall2_zip_fields (P : FieldDef -> value -> Prop) (fields : list FieldDef)
    (values : list value) :
  Forall2 P fields values ->
  Forall2 (fun f x => P f x /\ f ∈ fields
                      /\ (field_name f, x) ∈ zip (map field_name fields) values)
    fields values.
Proof.
  induction 1 as [|f x fields values Hfx _ IH]; constructor.
  - split; [exact Hfx|]. split; [left | cbn; left].
  - eapply Forall2_impl; [exact IH|]. intros f' x' (? & ? & ?). split; [assumption|].
    split; [now right | cbn; now right].
Qed.

Lemma dict_get_zip_fields (P : FieldDef -> value -> Prop) (fields : list FieldDef)
    (values : list value) :
  Forall2 P fields values ->
  NoDup (map field_name fields) ->
  map fst (zip (map field_name fields) values) = map field_name fields
  /\ forall f, f ∈ fields ->
       exists x, P f x /\ dict_get (field_name f) (zip (map field_name fields) values) = Some x.
Proof.
  induction 1 as [|f x fields values Hfx Hall IH]; intros Hnd.
  - split; [reflexivity|]. intros f Hf. inversion Hf.
  - cbn in Hnd. apply NoDup_cons in Hnd as [Hnotin Hnd].
    destruct (IH Hnd) as [Hkeys Hget]. split; [cbn; now rewrite Hkeys|].
    intros f' Hf'. apply elem_of_cons in Hf' as [->|Hf'].
    + exists x. split; [exact Hfx|]. cbn. now rewrite String.eqb_refl.
    + destruct (Hget f' Hf') as (x' & Hx' & Hd). exists x'. split; [exact Hx'|].
      cbn. destruct (String.eqb_spec (field_name f) (field_name f')) as [Heq|Hne];
        [|exact Hd].
      exfalso. apply Hnotin. rewrite Heq. apply list_elem_of_In, in_map.
      now apply list_elem_of_In.
Qed.

(** The instance the model builds from [args] is rebuilt from its
    [dict()], and holds for every field what the model made of [args]. *)
Lemma model_validate_rebuilds (m : ModelClass) (args : ArgumentDict) (instance : value) :
  check_schema m = true ->
  check_tokens m = true ->
  check_argument_instances m args = true ->
  defaults_rebuilt m args ->
  model_validate m args = Ok instance ->
  model_validate m (model_dict instance) = Ok instance
  /\ map fst (dunder_dict instance) = map field_name (model_fields m)
  /\ forall f, f ∈ model_fields m ->
       exists x, validate_field args f = Ok x
                 /\ dict_get (field_name f) (dunder_dict instance) = Some x.
Proof.
  intros Hschema Htokens Hinstances Hdefaults Hbuilt.
  unfold check_schema in Hschema. apply bool_decide_eq_true in Hschema.
  unfold check_tokens in Htokens. rewrite forallb_forall in Htokens.
  unfold check_argument_instances in Hinstances. rewrite forallb_forall in Hinstances.
  unfold model_validate in Hbuilt.
  destruct (gather (map (validate_field args) (model_fields m))) as [values|] eqn:Eg;
    [|discriminate].
  cbn in Hbuilt. injection Hbuilt as <-. cbn [dunder_dict].
  apply gather_map_Forall2 in Eg.
  destruct (dict_get_zip_fields _ _ _ Eg Hschema) as [Hkeys Hget].
  split; [|split; [exact Hkeys | exact Hget]].
  unfold model_validate, model_dict. cbn [dunder_dict].
  assert (Hg : gather (map (validate_field
                              (map (fun kv => (fst kv, to_dict (snd kv)))
                                 (zip (map field_name (model_fields m)) values)))
                         (model_fields m)) = Ok values).
  { apply gather_map_Forall2.
    eapply Forall2_impl; [exact (Forall2_zip_fields _ _ _ Eg)|].
    intros f x (Hfx & Hf & Hzip). cbn beta in Hfx.
    apply (validate_field_rebuilds f args); [| |exact Hfx|].
    - apply Htokens. now apply list_elem_of_In.
    - destruct (dict_get (field_name f) args) as [v|] eqn:Eget.
      + specialize (Hinstances f). rewrite Eget in Hinstances.
        apply Hinstances. now apply list_elem_of_In.
      + intros d Hd. now apply (Hdefaults f d).
    - now apply dict_get_zip. }
  now rewrite Hg.
Qed.

End Rebuilt.

(** The sample library [lax] rebuilds what it converts. *)
Lemma lax_conversions_rebuilt : @conversions_rebuilt Sample.lax.
Proof.
  intros t v x Hx.
  destruct t; destruct v; try discriminate; cbn in Hx; injection Hx as <-; reflexivity.
Qed.




(** With a library that converts, arguments that the parameter model
    accepts come back converted: the [bool] given for [organization_id]
    returns as the [int] 1. *)
Example argument_round_trip_converts :
  exists sig serial instance,
    @RpcMethodSignature_init Sample.lax Sample.OrganizationService
      Sample.update_organization = Ok sig
    /\ @serialize_arguments Sample.lax sig Sample.update_arguments_converted = Ok serial
    /\ @deserialize_arguments Sample.lax sig serial = Ok instance
    /\ dict_get "organization_id" Sample.update_arguments_converted = Some (VBool true)
    /\ dict_get "organization_id" (dunder_dict instance) = Some (VInt 1).
Proof.
  eexists _, _, _.
  split; [vm_compute; reflexivity|].
  split; [vm_compute; reflexivity|].
  split; [vm_compute; reflexivity|].
  split; vm_compute; reflexivity.
Qed.

(** ** More on request authentication *)

Section AuthenticatorMore.

Lemma append_cons (a : ascii) (p rest : string) :
  String a p +:+ rest = String a (p +:+ rest).
Proof. reflexivity. Qed.

Lemma startswith_append (p s : string) :
  Py.startswith p s = true -> exists rest, s = p +:+ rest.
Proof.
  revert s. induction p as [|a p IH]; intros s Hs.
  - now exists s.
  - destruct s as [|b s]; [discriminate|]. cbn in Hs.
    apply andb_true_iff in Hs as [Hab Hs]. apply Ascii.eqb_eq in Hab. subst b.
    destruct (IH _ Hs) as (rest & ->). now exists rest.
Qed.

Lemma startswith_append_true (p rest : string) : Py.startswith p (p +:+ rest) = true.
Proof.
  induction p as [|a p IH]; [reflexivity|].
  rewrite append_cons. cbn [Py.startswith]. now rewrite Ascii.eqb_refl, IH.
Qed.

Lemma cut_some (sep : ascii) (s before after : string) :
  Py.cut sep s = Some (before, after) ->
  s = before +:+ String sep after.
Proof.
  revert before. induction s as [|c s IH]; intros before Hcut; [discriminate|].
  cbn in Hcut. destruct (Ascii.eqb_spec c sep) as [->|Hne].
  - now injection Hcut as <- <-.
  - destruct (Py.cut sep s) as [[b a]|]; [|discriminate].
    injection Hcut as <- <-. rewrite append_cons. now rewrite (IH b eq_refl).
Qed.

Lemma split_rpc0 (rest : string) :
  Py.split ":" 2 ("rpc0:" +:+ rest)
  = "rpc0"%string :: match Py.cut ":" rest with
                     | Some (before, after) => [before; after]
                     | None => [rest]
                     end.
Proof. rewrite rpc0_append. cbn. now destruct (Py.cut ":" rest) as [[b a]|]. Qed.

Lemma encode_inj (a b : string) : Py.encode a = Py.encode b -> a = b.
Proof.
  unfold Py.encode. intros Hab.
  rewrite <- (String.string_of_list_byte_of_string a),
          <- (String.string_of_list_byte_of_string b).
  now rewrite Hab.
Qed.

Lemma compare_signature_keys_true (keys : list string) (input : list byte) (data : string) :
  compare_signature_keys keys input data = true ->
  exists key, key ∈ keys /\ data = Hmac.hexdigest (Py.encode key) input.
Proof.
  induction keys as [|k keys IH]; [discriminate|].
  cbn [compare_signature_keys].
  destruct (Py.compare_digest _ _) eqn:E.
  - intros _. exists k. split; [left|].
    unfold Py.compare_digest in E. apply bool_decide_eq_true in E.
    symmetry. now apply encode_inj.
  - intros Hrest. destruct (IH Hrest) as (key & Hin & Hdata).
    exists key. split; [now right | exact Hdata].
Qed.

End AuthenticatorMore.

(** X1. [compare_signature] accepts nothing but the tags of the configured
    secrets: when it returns [True], the signature is ["rpc0:"] followed by
    the hex HMAC-SHA256 of [url + ":" + body] under one of the secrets. *)
Theorem compare_signature_sound
    (settings : Settings) (url : string) (body : list byte) (signature : string) :
  compare_signature settings url body signature = Ok true ->
  exists key, key ∈ RPC_SHARED_SECRET settings /\ signature = rpc0_tag key url body.
Proof.
  unfold compare_signature. intros Hcmp.
  destruct (RPC_SHARED_SECRET settings) as [|k ks] eqn:Ekeys; [discriminate|].
  destruct (Py.startswith "rpc0:" signature) eqn:Eprefix; [|discriminate].
  cbn [negb] in Hcmp.
  destruct (startswith_append _ _ Eprefix) as (rest & ->).
  rewrite split_rpc0 in Hcmp.
  destruct (Py.cut ":" rest) as [[before after]|]; [discriminate|].
  injection Hcmp as Hkeys.
  destruct (compare_signature_keys_true (k :: ks) _ _ Hkeys) as (key & Hin & ->).
  exists key. split; [exact Hin | reflexivity].
Qed.

Lemma compare_signature_sound_witness :
  exists key,
    key ∈ ["new"; "old"]%string
    /\ "rpc0:b483b87dbbef8a826aa4ba84755bacb93180faffb87038a3cdea6584f69815e9"%string
       = rpc0_tag key "/rpc/foo/bar" scenario_body.
Proof.
  apply (compare_signature_sound (with_secrets ["new"; "old"]%string)).
  vm_compute. reflexivity.
Defined.

(** X2. With a secret configured, [compare_signature] raises exactly for
    the signatures that start with ["rpc0:"] and hold a further colon; for
    every other signature it answers with a boolean, and with [False] when the
    prefix is missing. *)
Theorem compare_signature_raises_iff
    (settings : Settings) (url : string) (body : list byte) (signature : string) :
  RPC_SHARED_SECRET settings <> [] ->
  ((exists e, compare_signature settings url body signature = Raise e)
   <-> exists before after, signature = "rpc0:" +:+ before +:+ String ":" after)
  /\ (Py.startswith "rpc0:" signature = false ->
      compare_signature settings url body signature = Ok false).
Proof.
  intros Hkeys. unfold compare_signature.
  destruct (RPC_SHARED_SECRET settings) as [|k ks]; [congruence|].
  destruct (Py.startswith "rpc0:" signature) eqn:Eprefix; cbn [negb].
  - destruct (startswith_append _ _ Eprefix) as (rest & ->).
    rewrite split_rpc0.
    split; [|discriminate].
    destruct (Py.cut ":" rest) as [[before after]|] eqn:Ecut.
    + split; [|eauto]. intros _. exists before, after.
      now rewrite (cut_some _ _ _ _ Ecut).
    + split; [intros [e He]; discriminate|].
      intros (before & after & Heq).
      assert (Hrest : rest = before +:+ String ":" after).
      { rewrite !rpc0_append in Heq. now injection Heq. }
      subst rest. clear -Ecut. exfalso.
      induction before as [|c before IH];
        [cbn in Ecut | rewrite append_cons in Ecut; cbn [Py.cut] in Ecut]; [discriminate|].
      destruct (Ascii.eqb c ":"); [discriminate|].
      destruct (Py.cut ":" (before +:+ String ":" after)) as [[b a]|];
        [discriminate | now apply IH].
  - split; [|reflexivity]. split; [intros [e He]; discriminate|].
    intros (before & after & ->).
    rewrite startswith_append_true in Eprefix. discriminate.
Qed.

Lemma compare_signature_raises_iff_witness :
  (exists e, compare_signature (with_secrets ["new"; "old"]%string) "/rpc/foo/bar"
               scenario_body "rpc0:a:b" = Raise e)
  /\ compare_signature (with_secrets ["new"; "old"]%string) "/rpc/foo/bar"
       scenario_body "rpc1:abcd" = Ok false.
Proof.
  destruct (compare_signature_raises_iff (with_secrets ["new"; "old"]%string)
              "/rpc/foo/bar" scenario_body "rpc0:a:b" ltac:(discriminate)) as [Hiff _].
  destruct (compare_signature_raises_iff (with_secrets ["new"; "old"]%string)
              "/rpc/foo/bar" scenario_body "rpc1:abcd" ltac:(discriminate)) as [_ Hfalse].
  split.
  - apply Hiff. exists "a"%string, "b"%string. reflexivity.
  - apply Hfalse. reflexivity.
Defined.

Section TagFormat.

Lemma be_bytes_length (n : nat) (z : Z) : length (Sha256.be_bytes n z) = n.
Proof. induction n as [|n IH]; cbn [Sha256.be_bytes length]; congruence. Qed.

Lemma sha256_digest_length (msg : list byte) : length (Sha256.digest msg) = 32%nat.
Proof.
  unfold Sha256.digest. cbv zeta.
  generalize (fold_left Sha256.compress
                (Sha256.chunks (length (Sha256.pad msg)) 64 (Sha256.pad msg)) Sha256.init).
  intros s. cbn [flat_map]. rewrite !length_app, !be_bytes_length. reflexivity.
Qed.

Lemma hmac_digest_length (key msg : list byte) : length (Hmac.digest key msg) = 32%nat.
Proof. unfold Hmac.digest. apply sha256_digest_length. Qed.

Lemma hex_digit_lower_hex (n : Z) : is_lower_hex (Hmac.hex_digit n) = true.
Proof.
  unfold Hmac.hex_digit. generalize (Z.to_nat n) as k.
  do 16 (destruct k as [|k]; [reflexivity|]).
  destruct k; reflexivity.
Qed.

Lemma hex_format (bs : list byte) :
  String.length (Hmac.hex bs) = (2 * length bs)%nat
  /\ forallb is_lower_hex (String.list_ascii_of_string (Hmac.hex bs)) = true.
Proof.
  induction bs as [|b bs [IHl IHc]]; [now split|].
  cbn [Hmac.hex String.length String.list_ascii_of_string forallb length].
  rewrite !hex_digit_lower_hex, IHl, IHc. split; [lia | reflexivity].
Qed.

End TagFormat.

(** X3. Every tag [generate_request_signature] returns has the form of
    the signature header: ["rpc0:"] followed by exactly 64 characters, each
    one of [0-9a-f]; and [compare_signature] accepts it. *)
Theorem generate_request_signature_format
    (settings : Settings) (url_path : string) (body : list byte) (tag : string) :
  generate_request_signature settings url_path body = Ok tag ->
  exists digits,
    tag = "rpc0:" +:+ digits
    /\ String.length digits = 64%nat
    /\ forallb is_lower_hex (String.list_ascii_of_string digits) = true
    /\ compare_signature settings url_path body tag = Ok true.
Proof.
  unfold generate_request_signature. intros Hgen.
  destruct (RPC_SHARED_SECRET settings) as [|secret others] eqn:Ekeys; [discriminate|].
  injection Hgen as <-.
  exists (Hmac.hexdigest (Py.encode secret) (signature_input url_path body)).
  destruct (hex_format (Hmac.digest (Py.encode secret) (signature_input url_path body)))
    as [Hlen Hchars].
  rewrite hmac_digest_length in Hlen.
  split; [reflexivity|]. split; [exact Hlen|]. split; [exact Hchars|].
  unfold compare_signature. rewrite Ekeys.
  rewrite startswith_append_true. cbn [negb].
  unfold Hmac.hexdigest. rewrite split_rpc0_hex.
  f_equal. rewrite <- Ekeys.
  apply (compare_signature_keys_member _ _ secret). rewrite Ekeys. left.
Qed.

Lemma generate_request_signature_format_witness :
  exists digits,
    "rpc0:b75e943b6f257603dfcf593e08e750befb5b928d2abc8c712554180f6b9b8f30"%string
    = "rpc0:" +:+ digits
    /\ String.length digits = 64%nat.
Proof.
  destruct (generate_request_signature_format (with_secrets ["new"; "old"]%string)
              "/rpc/foo/bar" scenario_body
              "rpc0:b75e943b6f257603dfcf593e08e750befb5b928d2abc8c712554180f6b9b8f30")
    as (digits & Htag & Hlen & _).
  - vm_compute. reflexivity.
  - exists digits. split; [exact Htag | exact Hlen].
Defined.

(** ** More on contract declaration *)

Section DeclarationMore.

Context `{Pydantic}.

Lemma create_fields_ok cls method params fields :
  create_fields cls method params = Ok fields ->
  fields = map field_of_parameter params
  /\ forallb (fun p => usable_annotation (param_annotation p)) params = true.
Proof.
  revert fields. induction params as [|p params IH]; intros fields Hok.
  - cbn in Hok. injection Hok as <-. now split.
  - cbn [create_fields] in Hok.
    destruct (create_field cls method p) as [f|] eqn:Ef; [|discriminate].
    cbn [rbind] in Hok.
    destruct (create_fields cls method params) as [fs|]; [|discriminate].
    cbn [rbind] in Hok. injection Hok as <-.
    destruct (IH fs eq_refl) as [-> Hall].
    unfold create_field in Ef. cbn [map forallb].
    destruct (param_annotation p) as [| |s|t] eqn:Ea; cbn in Ef; try discriminate;
      injection Ef as <-; unfold field_of_parameter; rewrite Ea, Hall; now split.
Qed.

Lemma create_model_ok name fields m :
  create_model name fields = Ok m -> m = {| model_name := name; model_fields := fields |}.
Proof.
  unfold create_model. destruct (create_model_error name fields); [discriminate|].
  now intros [= <-].
Qed.

Lemma create_signatures_loop_ok cls methods table result :
  create_signatures_loop cls methods table = Ok result ->
  (forall m, m ∈ methods -> is_Some (result !! dunder_name m))
  /\ (forall name, is_Some (table !! name) -> is_Some (result !! name))
  /\ (forall name sig,
        result !! name = Some sig ->
        table !! name = Some sig
        \/ exists m, m ∈ methods /\ dunder_name m = name
                     /\ RpcMethodSignature_init cls m = Ok sig).
Proof.
  revert table. induction methods as [|m methods IH]; intros table Hloop.
  - cbn in Hloop. injection Hloop as <-. split; [|split].
    + intros m Hin. inversion Hin.
    + auto.
    + auto.
  - cbn [create_signatures_loop] in Hloop.
    destruct (RpcMethodSignature_init cls m) as [sig0|] eqn:Einit.
    2:{ destruct (get_key cls); discriminate. }
    destruct (IH _ Hloop) as (Hall & Hkeep & Hfrom). split; [|split].
    + intros m' Hin. apply elem_of_cons in Hin as [->|Hin]; [|auto].
      apply Hkeep. rewrite lookup_insert_eq. eauto.
    + intros name Hname. apply Hkeep.
      destruct (decide (dunder_name m = name)) as [->|Hne].
      * rewrite lookup_insert_eq. eauto.
      * now rewrite lookup_insert_ne.
    + intros name sig Hsig. destruct (Hfrom name sig Hsig) as [Htable|(m' & Hin & Hn & Hi)].
      * destruct (decide (dunder_name m = name)) as [Heq|Hne].
        -- subst name. rewrite lookup_insert_eq in Htable. injection Htable as <-.
           right. exists m. split; [left | auto].
        -- rewrite lookup_insert_ne in Htable by exact Hne. now left.
      * right. exists m'. split; [now right | auto].
Qed.

End DeclarationMore.

(** X4. When the definition of a service class is accepted, the table of
    signatures holds an entry under the name of every RPC method of the class
    and nothing else, and each entry was built for this class from an RPC
    method of that name; a class that has RPC methods has its [key] and its
    [local_mode]. *)
Theorem init_subclass_signatures `{Pydantic}
    (cls : Class) (table : gmap string RpcMethodSignature) :
  __init_subclass__ cls = Ok table ->
  (forall m, m ∈ _get_all_rpc_methods cls -> is_Some (table !! dunder_name m))
  /\ (forall name sig,
        table !! name = Some sig ->
        exists m, m ∈ _get_all_rpc_methods cls
                  /\ dunder_name m = name
                  /\ RpcMethodSignature_init cls m = Ok sig
                  /\ _base_method sig = m
                  /\ _base_service_cls sig = cls)
  /\ (_has_rpc_methods cls = true ->
      is_Some (cls_key cls) /\ is_Some (cls_local_mode cls)).
Proof.
  intros Hinit.
  assert (Hsigs : _create_signatures cls = Ok table
                  /\ (_has_rpc_methods cls = true ->
                      is_Some (cls_key cls) /\ is_Some (cls_local_mode cls))).
  { unfold __init_subclass__ in Hinit.
    destruct (_has_rpc_methods cls); [|split; [exact Hinit | discriminate]].
    destruct (cls_key cls); [|discriminate].
    destruct (cls_local_mode cls); [|discriminate].
    split; [exact Hinit | eauto]. }
  destruct Hsigs as [Hsigs Hattrs]. unfold _create_signatures in Hsigs.
  destruct (create_signatures_loop_ok _ _ _ _ Hsigs) as (Hall & _ & Hfrom).
  split; [exact Hall|]. split; [|exact Hattrs].
  intros name sig Hsig. destruct (Hfrom name sig Hsig) as [Hempty|(m & Hin & Hname & Hi)].
  - rewrite lookup_empty in Hempty. discriminate.
  - exists m. destruct (signature_init_fields _ _ _ Hi) as (Hc & Hm & _).
    auto.
Qed.

Lemma init_subclass_signatures_witness :
  exists table sig,
    @__init_subclass__ Sample.strict Sample.OrganizationService = Ok table
    /\ table !! "get_organization"%string = Some sig
    /\ _base_method sig = Sample.get_organization.
Proof.
  assert (E : exists table,
                @__init_subclass__ Sample.strict Sample.OrganizationService = Ok table)
    by (vm_compute; eexists; reflexivity).
  destruct E as [table E].
  destruct (@init_subclass_signatures Sample.strict _ _ E) as (Hall & Hfrom & _).
  destruct (Hall Sample.get_organization) as [sig Hsig]; [cbn; right; left|].
  exists table, sig. split; [exact E|]. split; [exact Hsig|].
  destruct (Hfrom _ _ Hsig) as (m & Hin & Hname & _ & Hm & _).
  rewrite Hm. cbn in Hin.
  repeat (apply elem_of_cons in Hin as [->|Hin]; [first [reflexivity | discriminate]|]).
  inversion Hin.
Defined.

(** X5. The schema a signature is built with: the parameter model is
    named after the class and the method and has one field per parameter
    after [self], in order, with the parameter's annotation and default; each
    of those parameters is annotated and not by a string; the return model is
    absent exactly for the annotation [None], and otherwise has the single
    required field [value] of the return annotation. *)
Theorem signature_schema `{Pydantic}
    (cls : Class) (method : Method) (sig : RpcMethodSignature) :
  RpcMethodSignature_init cls method = Ok sig ->
  _parameter_model sig
  = {| model_name := cls_name cls +:+ "__" +:+ dunder_name method +:+ "__ParameterModel";
       model_fields := map field_of_parameter (drop 1 (parameters method)) |}
  /\ forallb (fun p => usable_annotation (param_annotation p))
       (drop 1 (parameters method)) = true
  /\ _return_model sig
     = match return_annotation method with
       | AnnNone => None
       | a =>
           Some {| model_name :=
                     cls_name cls +:+ "__" +:+ dunder_name method +:+ "__ReturnModel";
                   model_fields := [{| field_name := "value";
                                       field_type := annotation_type a;
                                       field_default := None |}] |}
       end
  /\ (forall s, return_annotation method <> AnnStr s).
Proof.
  unfold RpcMethodSignature_init. intros Hinit.
  destruct (_create_parameter_model cls method) as [pm|] eqn:Epm; [|discriminate].
  cbn [rbind] in Hinit.
  destruct (_create_return_model cls method) as [rm|] eqn:Erm; [|discriminate].
  cbn [rbind] in Hinit.
  destruct (_extract_region_resolution cls method) as [rr|]; [|discriminate].
  cbn [rbind] in Hinit. injection Hinit as <-. cbn.
  unfold _create_parameter_model in Epm.
  destruct (create_fields cls method (drop 1 (parameters method))) as [fields|] eqn:Ef;
    [|discriminate].
  cbn [rbind] in Epm. apply create_model_ok in Epm.
  destruct (create_fields_ok _ _ _ _ Ef) as [-> Husable].
  split; [exact Epm|]. split; [exact Husable|].
  unfold _create_return_model in Erm.
  destruct (return_annotation method) as [| |s|t] eqn:Ea; cbn in Erm.
  - destruct (create_model _ _) as [m|] eqn:Em in Erm; [|discriminate].
    injection Erm as <-. apply create_model_ok in Em. subst m.
    split; [reflexivity | discriminate].
  - injection Erm as <-. split; [reflexivity | discriminate].
  - discriminate.
  - destruct (create_model _ _) as [m|] eqn:Em in Erm; [|discriminate].
    injection Erm as <-. apply create_model_ok in Em. subst m.
    split; [reflexivity | discriminate].
Qed.

Lemma signature_schema_witness :
  exists sig,
    @RpcMethodSignature_init Sample.strict Sample.OrganizationService
      Sample.count_members = Ok sig
    /\ model_fields (_parameter_model sig)
       = [{| field_name := "organization_id"; field_type := TInt; field_default := None |}].
Proof.
  destruct (@RpcMethodSignature_init Sample.strict Sample.OrganizationService
              Sample.count_members) as [sig|] eqn:E; [|vm_compute in E; discriminate].
  exists sig. split; [reflexivity|].
  destruct (@signature_schema Sample.strict _ _ _ E) as (Hpm & _).
  rewrite Hpm. reflexivity.
Defined.

(** X6. A signature carries a region resolver exactly when its class is a
    [REGION] service, and it is the resolver the method was decorated with: a
    regional method on another service, or a region service method without a
    resolver, has no signature. *)
Theorem signature_region_resolution `{Pydantic}
    (cls : Class) (method : Method) (sig : RpcMethodSignature) :
  RpcMethodSignature_init cls method = Ok sig ->
  _region_resolution sig = region_resolution method
  /\ (is_Some (_region_resolution sig) <-> cls_local_mode cls = Some REGION).
Proof.
  unfold RpcMethodSignature_init. intros Hinit.
  destruct (_create_parameter_model cls method) as [pm|]; [|discriminate].
  cbn [rbind] in Hinit.
  destruct (_create_return_model cls method) as [rm|]; [|discriminate].
  cbn [rbind] in Hinit.
  destruct (_extract_region_resolution cls method) as [rr|] eqn:Err; [|discriminate].
  cbn [rbind] in Hinit. injection Hinit as <-. cbn.
  unfold _extract_region_resolution in Err.
  destruct (bool_decide (cls_local_mode cls = Some REGION)) eqn:Eregion;
    destruct (bool_decide (is_Some (region_resolution method))) eqn:Esome;
    cbn in Err; try discriminate; injection Err as <-;
    (split; [reflexivity|]).
  - apply bool_decide_eq_true in Eregion, Esome. tauto.
  - apply bool_decide_eq_false in Eregion, Esome. tauto.
Qed.

Lemma signature_region_resolution_witness :
  exists sig,
    @RpcMethodSignature_init Sample.strict Sample.OrganizationService
      Sample.count_members = Ok sig
    /\ is_Some (_region_resolution sig).
Proof.
  destruct (@RpcMethodSignature_init Sample.strict Sample.OrganizationService
              Sample.count_members) as [sig|] eqn:E; [|vm_compute in E; discriminate].
  exists sig. split; [reflexivity|].
  apply (@signature_region_resolution Sample.strict _ _ _ E). reflexivity.
Defined.

(** ** More on region resolution and delegation *)

(** X7. What [resolve_to_region] can give.  A result has a region exactly
    when it is not an early halt; an early halt occurs only for a method
    declared with the optional return whose resolver raised
    [RegionMappingNotFound], and any other result carries the region the
    resolver returned.  A failure is the setup error of a signature without
    resolver, or an [RpcServiceUnimplementedException] that carries its
    cause. *)
Theorem resolve_to_region_outcome (sig : RpcMethodSignature) (arguments : ArgumentDict) :
  match resolve_to_region sig arguments with
  | Ok r =>
      (region r = None <-> is_early_halt r = true)
      /\ exists strategy,
           _region_resolution sig = Some strategy
           /\ if is_early_halt r
              then region_resolution_optional_return (_base_method sig) = true
                   /\ exists e, resolve strategy arguments = Raise e
                                /\ exc_cls e = RegionMappingNotFound
              else exists found, resolve strategy arguments = Ok (Some found)
                                 /\ region r = Some found
  | Raise e =>
      (_region_resolution sig = None /\ exc_cls e = RpcServiceSetupException)
      \/ (exc_cls e = RpcServiceUnimplementedException /\ is_Some (exc_cause e))
  end.
Proof.
  unfold resolve_to_region.
  destruct (_region_resolution sig) as [strategy|]; [|left; now split].
  destruct (resolve strategy arguments) as [[found|]|e] eqn:Eres; cbn.
  - split; [split; discriminate|]. exists strategy. split; [reflexivity|]. eauto.
  - right. split; [reflexivity | eauto].
  - destruct (bool_decide (exc_cls e = RegionMappingNotFound)) eqn:Ecls;
      [|right; split; [reflexivity | eauto]].
    apply bool_decide_eq_true in Ecls.
    destruct (region_resolution_optional_return (_base_method sig)) eqn:Eopt; cbn.
    + split; [split; reflexivity|]. exists strategy. split; [reflexivity|].
      split; [reflexivity|]. eauto.
    + right. split; [reflexivity | eauto].
Qed.

Section DelegationMore.

Context `{Pydantic}.

Lemma validate_local_methods_ok cls impl methods :
  validate_local_methods cls impl methods = Ok tt ->
  forall m, m ∈ methods ->
    exists mi, getattr impl (dunder_name m) = Ok mi
               /\ isabstractmethod mi = false
               /\ (list_to_set (get_parameters m) : gset string)
                  = list_to_set (get_parameters mi).
Proof.
  induction methods as [|m0 methods IH]; intros Hok m Hin; [inversion Hin|].
  cbn [validate_local_methods] in Hok.
  destruct (getattr impl (dunder_name m0)) as [mi|] eqn:Eget; [|discriminate].
  cbn [rbind] in Hok. unfold _is_abstract_method in Hok.
  destruct (isabstractmethod mi) eqn:Eabs.
  { destruct (get_key cls); discriminate. }
  destruct (bool_decide _) eqn:Eparams in Hok; cbn [negb] in Hok.
  2:{ destruct (get_key cls); discriminate. }
  apply bool_decide_eq_true in Eparams.
  apply elem_of_cons in Hin as [->|Hin]; [eauto | now apply IH].
Qed.

Lemma lookup_attr_In name attrs m :
  lookup_attr name attrs = Some m -> In (name, m) attrs.
Proof.
  induction attrs as [|[n m'] attrs IH]; [discriminate|]. cbn.
  destruct (String.eqb_spec n name) as [->|Hne].
  - intros [= ->]. now left.
  - intros Hl. right. now apply IH.
Qed.

Lemma instantiate_concrete cls obj name m :
  instantiate cls = Ok obj ->
  lookup_attr name (cls_attrs obj) = Some m ->
  isabstractmethod m = false.
Proof.
  unfold instantiate. destruct (forallb _ _) eqn:Eall; [|discriminate].
  intros [= <-] Hl. apply lookup_attr_In in Hl.
  rewrite forallb_forall in Eall. specialize (Eall _ Hl). cbn in Eall.
  now destruct (isabstractmethod m).
Qed.

Lemma rpc_overrides_loop_all cls use_test_client methods acc overrides :
  rpc_overrides_loop cls use_test_client None methods acc = Ok overrides ->
  remote_entries use_test_client acc ->
  remote_entries use_test_client overrides
  /\ (forall k, k ∈ map fst overrides
                <-> k ∈ map fst acc \/ exists m, m ∈ methods /\ dunder_name m = k).
Proof.
  revert acc. induction methods as [|m methods IH]; intros acc Hloop Hacc.
  - cbn in Hloop. injection Hloop as <-. split; [exact Hacc|].
    intros k. split; [auto|]. intros [?|(m & Hin & _)]; [auto | inversion Hin].
  - cbn [rpc_overrides_loop should_generate_remote_method rbind] in Hloop.
    unfold create_remote_method in Hloop.
    destruct (_signatures cls !! dunder_name m); [|discriminate].
    cbn [rbind] in Hloop.
    destruct (IH _ Hloop (dict_set_remote_entries _ _ _ Hacc)) as (Hrem & Hkeys).
    split; [exact Hrem|]. intros k. rewrite Hkeys, dict_set_keys. split.
    + intros [[->|Hk]|(m' & Hin & Hname)]; [right|left|right].
      * exists m. split; [left | reflexivity].
      * exact Hk.
      * exists m'. split; [now right | exact Hname].
    + intros [Hk|(m' & Hin & Hname)]; [auto|].
      apply elem_of_cons in Hin as [->|Hin]; [auto|]. right. eauto.
Qed.

End DelegationMore.

(** X8. The local implementation that [_get_and_validate_local_implementation]
    returns is the one [get_local_implementation] gives, and it implements
    every abstract RPC method of the base class by a method that is not
    abstract and takes the same parameter names, [self] apart. *)
Theorem local_implementation_validated `{Pydantic} (cls : RpcService) (impl : Class) :
  _get_and_validate_local_implementation cls = Ok impl ->
  get_local_implementation cls = Ok impl
  /\ forall m, m ∈ _get_abstract_rpc_methods (service_cls cls) ->
       exists mi, getattr impl (dunder_name m) = Ok mi
                  /\ isabstractmethod mi = false
                  /\ (list_to_set (get_parameters m) : gset string)
                     = list_to_set (get_parameters mi).
Proof.
  unfold _get_and_validate_local_implementation. intros Hok.
  destruct (get_local_implementation cls) as [impl0|]; [|discriminate].
  cbn [rbind] in Hok.
  destruct (validate_local_methods _ impl0 _) as [[]|] eqn:Ev; [|discriminate].
  cbn [rbind] in Hok. injection Hok as ->. split; [reflexivity|].
  now apply (validate_local_methods_ok (service_cls cls)).
Qed.

Lemma local_implementation_validated_witness :
  exists mi,
    getattr Sample.DatabaseBackedOrganizationService "count_members" = Ok mi
    /\ isabstractmethod mi = false.
Proof.
  destruct (@local_implementation_validated Sample.strict Sample.organization_service
              Sample.DatabaseBackedOrganizationService) as [_ Hall].
  - vm_compute. reflexivity.
  - destruct (Hall Sample.count_members) as (mi & Hget & Habs & _); [cbn; left|].
    exists mi. split; [exact Hget | exact Habs].
Defined.

(** X9. Without a partial override, the delegate that
    [_create_remote_implementation] returns has the generated remote method
    under the name of every abstract RPC method of the base class, keeps the
    attributes of the base class under every other name, and has no abstract
    method left. *)
Theorem remote_implementation_without_override `{Pydantic}
    (cls : RpcService) (use_test_client : bool) (delegate : Class) :
  _create_remote_implementation cls use_test_client None = Ok delegate ->
  (forall m, m ∈ _get_abstract_rpc_methods (service_cls cls) ->
     getattr delegate (dunder_name m)
     = Ok (remote_method_function (dunder_name m) use_test_client))
  /\ (forall name,
        (forall m, m ∈ _get_abstract_rpc_methods (service_cls cls) -> dunder_name m <> name) ->
        lookup_attr name (cls_attrs delegate)
        = lookup_attr name (cls_attrs (service_cls cls)))
  /\ (forall name m,
        lookup_attr name (cls_attrs delegate) = Some m -> isabstractmethod m = false).
Proof.
  intros Hcreate. unfold _create_remote_implementation in Hcreate.
  destruct (rpc_overrides cls use_test_client None) as [overrides|] eqn:Eov; [|discriminate].
  cbn [rbind] in Hcreate. unfold rpc_overrides in Eov.
  destruct (rpc_overrides_loop_all _ _ _ _ _ Eov (Forall_nil_2 _)) as (Hrem & Hkeys).
  cbn [default] in Hcreate. unfold id in Hcreate.
  destruct (__init_subclass__ _) in Hcreate; [|discriminate].
  cbn [rbind] in Hcreate.
  split; [|split].
  - intros m Hin. apply instantiate_ok in Hcreate. subst delegate.
    unfold getattr. rewrite (lookup_type_new use_test_client) by exact Hrem.
    rewrite bool_decide_eq_true_2; [reflexivity|].
    apply Hkeys. right. eauto.
  - intros name Hname. apply instantiate_ok in Hcreate. subst delegate.
    rewrite (lookup_type_new use_test_client) by exact Hrem.
    rewrite bool_decide_eq_false_2; [reflexivity|].
    intros Hk. apply Hkeys in Hk as [Hk|(m & Hin & Hn)]; [inversion Hk|].
    exact (Hname m Hin Hn).
  - intros name m. exact (instantiate_concrete _ _ _ _ Hcreate).
Qed.

Lemma remote_implementation_without_override_witness :
  exists delegate,
    @_create_remote_implementation Sample.strict Sample.organization_service true None
    = Ok delegate
    /\ getattr delegate "update_organization"
       = Ok (remote_method_function "update_organization" true).
Proof.
  destruct (@_create_remote_implementation Sample.strict Sample.organization_service true None)
    as [delegate|] eqn:E; [|vm_compute in E; discriminate].
  exists delegate. split; [reflexivity|].
  destruct (@remote_implementation_without_override Sample.strict _ _ _ E) as (Hall & _).
  apply (Hall Sample.update_organization). cbn. right. right. left.
Defined.

(** X10. [create_delegation] stores the facade it returns in the registry
    under the key of the class, replacing what was there, and leaves every
    other entry, the mode and the transport alone; the facade carries the
    class and its signatures. *)
Theorem create_delegation_registers `{Process}
    (cls : RpcService) (use_test_client : option bool) (nonlocal_class : option Class)
    (w w' : World) (service : DelegatingRpcService) :
  create_delegation cls use_test_client nonlocal_class w = (Ok service, w') ->
  exists key,
    cls_key (service_cls cls) = Some key
    /\ _global_service_registry w' !! key = Some service
    /\ (forall other, other <> key ->
          _global_service_registry w' !! other = _global_service_registry w !! other)
    /\ current_mode w' = current_mode w
    /\ transport_calls w' = transport_calls w
    /\ base_service_cls service = cls
    /\ signatures service = _signatures cls.
Proof.
  unfold create_delegation, bind, lift, raise, get_key. intros Hcd.
  destruct (cls_local_mode (service_cls cls)) as [home|]; [|discriminate].
  destruct (cls_key (service_cls cls)) as [key|]; [|discriminate].
  injection Hcd as <- <-. exists key. cbn.
  split; [reflexivity|]. split; [apply lookup_insert_eq|].
  split; [intros other Hne; now apply lookup_insert_ne|].
  repeat split.
Qed.

Lemma create_delegation_registers_witness :
  exists service,
    _global_service_registry (Sample.delegated (Sample.answering VNone))
      !! "organization"%string = Some service
    /\ signatures service = _signatures Sample.organization_service.
Proof.
  destruct (@create_delegation (Sample.answering VNone) Sample.organization_service
              None None Sample.empty_world) as [[service|] w'] eqn:E;
    [|vm_compute in E; discriminate].
  destruct (@create_delegation_registers (Sample.answering VNone) _ _ _ _ _ _ E)
    as (key & Hkey & Hreg & _ & _ & _ & _ & Hsigs).
  exists service. cbn in Hkey. injection Hkey as <-.
  unfold Sample.delegated. rewrite E. split; [exact Hreg | exact Hsigs].
Defined.



(** ** More on the transport *)

Section TransportMore.

Context `{Pydantic} `{Process}.

Lemma compare_signature_of_generated (url_path : string) (body : list byte) (tag : string) :
  generate_request_signature settings url_path body = Ok tag ->
  compare_signature settings url_path body tag = Ok true.
Proof.
  unfold generate_request_signature, compare_signature.
  destruct (RPC_SHARED_SECRET settings) as [|secret others] eqn:Ekeys; [discriminate|].
  intros [= <-]. rewrite startswith_append_true. cbn [negb].
  unfold Hmac.hexdigest. rewrite split_rpc0_hex. f_equal.
  apply (compare_signature_keys_member (secret :: others) _ secret). left.
Qed.

Lemma look_up_service_method_world (service_name method_name : string) (w : World) :
  snd (_look_up_service_method service_name method_name w) = w.
Proof.
  unfold _look_up_service_method, facade_getattr, get_current_mode, bind, lift, ret.
  destruct (_global_service_registry w !! service_name) as [service|]; [|reflexivity].
  destruct (facade_attribute service method_name); [reflexivity|].
  destruct (let? impl := construct _ _ in instance_getattr impl method_name) as [m|e];
    [reflexivity|]. now destruct (bool_decide _).
Qed.

(** After a response was received, [dispatch] leaves the world as it is. *)
Lemma dispatch_after_send (self : _RemoteSiloCall) (use_test_client : bool) (w : World) :
  snd (dispatch self use_test_client w) = snd (_send_to_remote_silo self use_test_client w).
Proof.
  unfold dispatch, bind, lift.
  destruct (_send_to_remote_silo self use_test_client w) as [[serial_response|e] w1];
    [|reflexivity].
  destruct (subscript_value serial_response) as [return_value|e]; [|reflexivity].
  pose proof (look_up_service_method_world (call_service_name self) (call_method_name self) w1)
    as Hw.
  destruct (_look_up_service_method _ _ w1) as [[found|e] w2]; cbn in Hw; subst w2;
    [|reflexivity].
  now destruct return_value.
Qed.

(** The world after [_send_to_remote_silo]: untouched, or with the one
    request of the call. *)
Lemma send_to_remote_silo_world (self : _RemoteSiloCall) (use_test_client : bool) (w : World) :
  snd (_send_to_remote_silo self use_test_client w) = w
  \/ exists request tag,
       snd (_send_to_remote_silo self use_test_client w) = with_transport_call request w
       /\ generate_request_signature settings (path self) (request_data self) = Ok tag
       /\ request_of self use_test_client tag request.
Proof.
  unfold _send_to_remote_silo, bind, lift. fold (request_data self).
  destruct (generate_request_signature settings (path self) (request_data self))
    as [tag|e] eqn:Etag; [|now left].
  destruct use_test_client.
  - right. unfold _fire_test_request, send.
    eexists _, tag. split; [|split; [reflexivity|]].
    + destruct (post _) as [response|e]; [|reflexivity].
      destruct (status_code response =? 200); reflexivity.
    + unfold request_of. cbn. auto.
  - unfold _fire_request, bind, lift, send.
    destruct (address self) as [a|e] eqn:Ea; [|now left].
    right. eexists _, tag. split; [|split; [reflexivity|]].
    + destruct (post _) as [response|e]; [|reflexivity].
      destruct (status_code response =? 200); reflexivity.
    + unfold request_of. cbn. rewrite Ea. eauto 10.
Qed.

End TransportMore.

(** X12. One dispatch hands at most one request to the transport, and
    changes nothing else in the world.  The request it hands over goes
    through the client asked for, to the region of the call, to the path of
    the method (after the configured address, for the HTTP client), with the
    encoded body [{"meta": {}, "args": ...}] and the headers [Content-Type] and
    [Authorization: Rpcsignature <tag>], where [compare_signature] accepts the
    tag for the path and the body. *)
Theorem dispatch_transport `{Pydantic} `{Process}
    (self : _RemoteSiloCall) (use_test_client : bool) (w : World) :
  let w' := snd (dispatch self use_test_client w) in
  _global_service_registry w' = _global_service_registry w
  /\ current_mode w' = current_mode w
  /\ (transport_calls w' = transport_calls w
      \/ exists request tag,
           transport_calls w' = transport_calls w ++ [request]
           /\ request_of self use_test_client tag request
           /\ compare_signature settings (path self) (req_data request) tag = Ok true).
Proof.
  cbv zeta. rewrite dispatch_after_send.
  destruct (send_to_remote_silo_world self use_test_client w)
    as [->|(request & tag & -> & Htag & Hreq)].
  - auto.
  - cbn. split; [reflexivity|]. split; [reflexivity|].
    right. exists request, tag. split; [reflexivity|]. split; [exact Hreq|].
    destruct Hreq as (_ & _ & -> & _). now apply compare_signature_of_generated.
Qed.

(** X13. Without a shared secret, or without an address for the target
    when the HTTP client is used, [dispatch] fails with a setup exception
    and hands nothing to the transport. *)
Theorem dispatch_without_configuration `{Pydantic} `{Process}
    (self : _RemoteSiloCall) (use_test_client : bool) (w : World) :
  RPC_SHARED_SECRET settings = []
  \/ (use_test_client = false
      /\ match call_region self with
         | None => SENTRY_CONTROL_ADDRESS settings = ""%string
         | Some target => region_address target = ""%string
         end) ->
  exists e,
    dispatch self use_test_client w = (Raise e, w)
    /\ (exc_cls e = RpcAuthenticationSetupException \/ exc_cls e = RpcServiceSetupException).
Proof.
  intros Hmissing. unfold dispatch, _send_to_remote_silo, bind, lift.
  fold (request_data self).
  destruct (generate_request_signature settings (path self) (request_data self))
    as [tag|e] eqn:Etag.
  - destruct Hmissing as [Hkeys|[-> Haddress]].
    { unfold generate_request_signature in Etag. rewrite Hkeys in Etag. discriminate. }
    unfold _fire_request, bind, lift.
    assert (Ha : exists e, address self = Raise e /\ exc_cls e = RpcServiceSetupException).
    { unfold address. destruct (call_region self) as [target|]; rewrite Haddress;
        cbn; eauto. }
    destruct Ha as (e & -> & Hcls). exists e. split; [reflexivity | now right].
  - exists e. split; [reflexivity|]. left.
    unfold generate_request_signature in Etag.
    destruct (RPC_SHARED_SECRET settings); [|discriminate].
    now injection Etag as <-.
Qed.

Lemma dispatch_without_configuration_witness :
  exists e,
    @dispatch Sample.strict unconfigured_process
      (sample_call "count_members" [("organization_id", VInt 1)]) false Sample.empty_world
    = (Raise e, Sample.empty_world)
    /\ (exc_cls e = RpcAuthenticationSetupException \/ exc_cls e = RpcServiceSetupException).
Proof.
  apply (@dispatch_without_configuration Sample.strict unconfigured_process).
  left. reflexivity.
Defined.

(** X14. In production, a response with a status other than 200 makes
    [dispatch] raise [RpcRemoteException] with a message that depends on the
    status alone (403, 400, or the status in "Service unavailable"): the body
    of the response is not read, the registry is not consulted, and the
    request is not sent again. *)
Theorem dispatch_refused `{Pydantic} `{Process}
    (self : _RemoteSiloCall) (use_test_client : bool) (w : World) (response : HttpResponse) :
  in_test_environment = false ->
  RPC_SHARED_SECRET settings <> [] ->
  (use_test_client = true \/ exists a, address self = Ok a) ->
  (forall request, post request = Ok response) ->
  status_code response <> 200 ->
  exists request,
    dispatch self use_test_client w
    = (Raise (RpcException RpcRemoteException (call_service_name self)
                (Some (call_method_name self))
                (production_status_message (status_code response)) None),
       with_transport_call request w).
Proof.
  intros Hprod Hkeys Haddress Hpost Hstatus.
  unfold dispatch, _send_to_remote_silo, bind, lift. fold (request_data self).
  destruct (generate_request_signature settings (path self) (request_data self))
    as [tag|e] eqn:Etag.
  2:{ unfold generate_request_signature in Etag.
      destruct (RPC_SHARED_SECRET settings); [congruence | discriminate]. }
  assert (Hexc : _raise_from_response_status_error self response
                 = RpcException RpcRemoteException (call_service_name self)
                     (Some (call_method_name self))
                     (production_status_message (status_code response)) None).
  { unfold _raise_from_response_status_error, production_status_message, _remote_exception.
    rewrite Hprod.
    destruct (status_code response =? 403); [reflexivity|].
    destruct (status_code response =? 400); reflexivity. }
  apply Z.eqb_neq in Hstatus.
  destruct use_test_client.
  - unfold _fire_test_request, send. rewrite Hpost, Hstatus. unfold raise.
    rewrite Hexc. eexists. reflexivity.
  - destruct Haddress as [?|(a & Ha)]; [discriminate|].
    unfold _fire_request, bind, lift, send. rewrite Ha, Hpost, Hstatus. unfold raise.
    rewrite Hexc. eexists. reflexivity.
Qed.

Lemma dispatch_refused_witness :
  exists request,
    @dispatch Sample.strict (refused_process 503)
      (sample_call "count_members" [("organization_id", VInt 1)]) false Sample.empty_world
    = (Raise (Exc RpcRemoteException
                "organization.count_members: Service unavailable (503 status)" None),
       with_transport_call request Sample.empty_world).
Proof.
  apply (@dispatch_refused Sample.strict (refused_process 503)
           (sample_call "count_members" [("organization_id", VInt 1)]) false
           Sample.empty_world
           {| status_code := 503;
              response_json := Raise (Exc JSONDecodeError "Expecting value" None) |}).
  - reflexivity.
  - discriminate.
  - right. eexists. reflexivity.
  - reflexivity.
  - discriminate.
Defined.

(** ** The receiving side and the way back *)

Section LocalMore.

Context `{Pydantic}.

(** Induction on values that reaches the items of lists, dicts and models. *)
Lemma value_nested_ind (P : value -> Prop) :
  P VNone -> (forall b, P (VBool b)) -> (forall n, P (VInt n)) ->
  (forall bits, P (VFloat bits)) -> (forall s, P (VStr s)) ->
  (forall items, Forall P items -> P (VList items)) ->
  (forall entries, Forall (fun kv => P (snd kv)) entries -> P (VDict entries)) ->
  (forall cls fields, Forall (fun kv => P (snd kv)) fields -> P (VModel cls fields)) ->
  forall v, P v.
Proof.
  intros HNone HBool HInt HFloat HStr HList HDict HModel.
  fix IH 1. intros [|b|n|bits|s|items|entries|cls fields].
  - exact HNone.
  - apply HBool.
  - apply HInt.
  - apply HFloat.
  - apply HStr.
  - apply HList. induction items as [|x items IHi]; constructor; [apply IH | exact IHi].
  - apply HDict. induction entries as [|[k x] entries IHe]; constructor;
      [apply IH | exact IHe].
  - apply HModel. induction fields as [|[k x] fields IHf]; constructor;
      [apply IH | exact IHf].
Qed.

Lemma result_to_dict_to_dict (v : value) : result_to_dict v = to_dict v.
Proof.
  induction v as [| | | | |items IH|entries IH|cls fields IH] using value_nested_ind;
    try reflexivity.
  - cbn. f_equal. induction IH as [|x items Hx _ IHi]; [reflexivity|].
    cbn. now rewrite Hx, IHi.
  - cbn. f_equal. induction IH as [|[k x] entries Hx _ IHe]; [reflexivity|].
    cbn in *. now rewrite Hx, IHe.
Qed.

Lemma to_dict_plain (v : value) : is_plain (to_dict v) = true.
Proof.
  induction v as [| | | | |items IH|entries IH|cls fields IH] using value_nested_ind;
    try reflexivity; cbn.
  - induction IH as [|x items Hx _ IHi]; [reflexivity|]. cbn. now rewrite Hx, IHi.
  - induction IH as [|[k x] entries Hx _ IHe]; [reflexivity|].
    cbn in *. now rewrite Hx, IHe.
  - induction IH as [|[k x] fields Hx _ IHf]; [reflexivity|].
    cbn in *. now rewrite Hx, IHf.
Qed.

Lemma plain_to_dict (v : value) : is_plain v = true -> to_dict v = v.
Proof.
  induction v as [| | | | |items IH|entries IH|cls fields IH] using value_nested_ind;
    try reflexivity; cbn; intros Hp.
  - f_equal. induction IH as [|x items Hx _ IHi]; [reflexivity|].
    cbn in Hp. apply andb_true_iff in Hp as [Hp1 Hp2].
    cbn. now rewrite Hx, IHi.
  - f_equal. induction IH as [|[k x] entries Hx _ IHe]; [reflexivity|].
    cbn in Hp. apply andb_true_iff in Hp as [Hp1 Hp2].
    cbn in *. now rewrite Hx, IHe.
  - discriminate.
Qed.

(** The return model of a signature built for a method annotated with a
    type token. *)
Lemma signature_return_model cls method sig t :
  RpcMethodSignature_init cls method = Ok sig ->
  return_annotation method = AnnType t ->
  exists name,
    _return_model sig
    = Some {| model_name := name;
              model_fields := [{| field_name := "value"; field_type := t;
                                  field_default := None |}] |}.
Proof.
  unfold RpcMethodSignature_init. intros Hinit Ht.
  destruct (_create_parameter_model cls method) as [pm|]; [|discriminate].
  cbn [rbind] in Hinit.
  destruct (_create_return_model cls method) as [rm|] eqn:Erm; [|discriminate].
  cbn [rbind] in Hinit.
  destruct (_extract_region_resolution cls method) as [rr|]; [|discriminate].
  cbn [rbind] in Hinit. injection Hinit as <-. cbn.
  unfold _create_return_model in Erm. rewrite Ht in Erm. cbn in Erm.
  unfold create_model in Erm.
  destruct (create_model_error _ _); [discriminate|].
  cbn in Erm. injection Erm as <-. eauto.
Qed.

Lemma deserialize_return_value_typed sig name t v :
  _return_model sig
  = Some {| model_name := name;
            model_fields := [{| field_name := "value"; field_type := t;
                                field_default := None |}] |} ->
  check_type t v = true ->
  deserialize_return_value sig (to_dict v) = Ok v.
Proof.
  intros Hrm Hv. unfold deserialize_return_value. rewrite Hrm.
  unfold model_validate. cbn [model_fields map].
  rewrite (validate_field_lookup _ _ (to_dict v)) by reflexivity.
  assert (Hf : check_field {| field_name := "value"; field_type := t;
                              field_default := None |} v = true).
  { unfold check_field. cbn. now rewrite Hv. }
  destruct (validate_checked_field _ _ Hf) as [_ ->]. reflexivity.
Qed.

End LocalMore.

(** X15. A value of the declared return type survives the way back: what
    [result_to_dict] makes of it on the receiving side is a value without
    model instances, and [deserialize_return_value] rebuilds the value from
    it. *)
Theorem return_value_round_trip `{Pydantic}
    (cls : Class) (method : Method) (sig : RpcMethodSignature)
    (t : type_token) (v : value) :
  RpcMethodSignature_init cls method = Ok sig ->
  return_annotation method = AnnType t ->
  check_type t v = true ->
  is_plain (result_to_dict v) = true
  /\ deserialize_return_value sig (result_to_dict v) = Ok v.
Proof.
  intros Hinit Ht Hv. rewrite result_to_dict_to_dict.
  split; [apply to_dict_plain|].
  destruct (signature_return_model _ _ _ _ Hinit Ht) as (name & Hrm).
  now apply (deserialize_return_value_typed sig name t).
Qed.

Lemma return_value_round_trip_witness :
  exists sig,
    @RpcMethodSignature_init Sample.strict Sample.OrganizationService
      Sample.get_organization = Ok sig
    /\ @deserialize_return_value Sample.strict sig (result_to_dict Sample.organization)
       = Ok Sample.organization.
Proof.
  destruct (@RpcMethodSignature_init Sample.strict Sample.OrganizationService
              Sample.get_organization) as [sig|] eqn:E; [|vm_compute in E; discriminate].
  exists sig. split; [reflexivity|].
  apply (@return_value_round_trip Sample.strict _ _ sig
           (TOptional Sample.RpcOrganization) Sample.organization E);
    reflexivity.
Defined.

(** X16. The envelope [dispatch_to_local_service] returns is
    [{"meta": {}, "value": x}] where [x] is the converted result of the
    method and holds no model instance; converting a value that holds none
    changes nothing. *)
Theorem dispatch_to_local_service_envelope `{Pydantic} `{Process}
    (invoke : Attribute -> list (string * value) -> M value)
    (service_name method_name : string) (serial_arguments : ArgumentDict)
    (w w' : World) (envelope : value) :
  dispatch_to_local_service invoke service_name method_name serial_arguments w
  = (Ok envelope, w') ->
  exists x,
    envelope = VDict [("meta", VDict []); ("value", x)]
    /\ is_plain envelope = true
    /\ result_to_dict x = x.
Proof.
  unfold dispatch_to_local_service, bind, lift, ret. intros Hd.
  destruct (_look_up_service_method service_name method_name w) as [[found|] w1];
    [|discriminate].
  destruct (deserialize_rpc_arguments (fst found) method_name serial_arguments);
    [|discriminate].
  destruct (invoke (snd found) _ w1) as [[result|] w2]; [|discriminate].
  injection Hd as <- <-. exists (result_to_dict result).
  split; [reflexivity|].
  assert (Hp : is_plain (result_to_dict result) = true)
    by (rewrite result_to_dict_to_dict; apply to_dict_plain).
  split; [cbn; now rewrite Hp|].
  rewrite (result_to_dict_to_dict (result_to_dict result)). now apply plain_to_dict.
Qed.

Lemma dispatch_to_local_service_envelope_witness :
  @dispatch_to_local_service Sample.strict (Sample.answering VNone) sample_invoke "organization" "get_organization"
    [("organization_id", VInt 1)] region_silo
  = (Ok (VDict [("meta", VDict []);
                ("value", VDict [("id", VInt 1); ("slug", VStr "acme");
                                 ("flags", VList [VStr "early-adopter"])])]),
     region_silo)
  /\ exists x,
       VDict [("meta", VDict []);
              ("value", VDict [("id", VInt 1); ("slug", VStr "acme");
                               ("flags", VList [VStr "early-adopter"])])]
       = VDict [("meta", VDict []); ("value", x)]
       /\ result_to_dict x = x.
Proof.
  assert (Hd : @dispatch_to_local_service Sample.strict (Sample.answering VNone) sample_invoke "organization"
                 "get_organization" [("organization_id", VInt 1)] region_silo
               = (Ok (VDict [("meta", VDict []);
                             ("value", VDict [("id", VInt 1); ("slug", VStr "acme");
                                              ("flags", VList [VStr "early-adopter"])])]),
                  region_silo)).
  { apply injective_projections; [vm_compute; reflexivity|].
    unfold dispatch_to_local_service, bind, lift, ret.
    pose proof (@look_up_service_method_world Sample.strict (Sample.answering VNone) "organization"
                  "get_organization" region_silo) as Hw.
    destruct (@_look_up_service_method Sample.strict (Sample.answering VNone) "organization" "get_organization"
                region_silo) as [[found|e] w1]; cbn in Hw; subst w1; [|reflexivity].
    destruct (deserialize_rpc_arguments _ _ _); [|reflexivity].
    unfold sample_invoke, ret, raise. destruct (snd found); try reflexivity.
    now destruct (String.eqb _ _). }
  split; [exact Hd|].
  destruct (@dispatch_to_local_service_envelope Sample.strict _ _ _ _ _ _ _ _ Hd)
    as (x & Henv & _ & Hx).
  exists x. split; [exact Henv | exact Hx].
Defined.

(** X17. [dispatch_to_local_service] fails before the method is called,
    and leaves the world alone, when the service or the method is not found
    (with the exception of the lookup) and when the arguments do not fit the
    parameter model (with [RpcArgumentException], caused by the error of the
    model). *)
Theorem dispatch_to_local_service_refusals `{Pydantic} `{Process}
    (invoke : Attribute -> list (string * value) -> M value)
    (service_name method_name : string) (serial_arguments : ArgumentDict) (w : World) :
  (forall e,
     fst (_look_up_service_method service_name method_name w) = Raise e ->
     dispatch_to_local_service invoke service_name method_name serial_arguments w
     = (Raise e, w))
  /\ (forall service method sig cause,
        fst (_look_up_service_method service_name method_name w) = Ok (service, method) ->
        signatures service !! method_name = Some sig ->
        model_validate (_parameter_model sig) serial_arguments = Raise cause ->
        exists e,
          dispatch_to_local_service invoke service_name method_name serial_arguments w
          = (Raise e, w)
          /\ exc_cls e = RpcArgumentException
          /\ exc_cause e = Some cause).
Proof.
  pose proof (look_up_service_method_world service_name method_name w) as Hw.
  unfold dispatch_to_local_service, bind, lift.
  destruct (_look_up_service_method service_name method_name w) as [[found|e0] w1];
    cbn in Hw; subst w1; cbn [fst].
  - split; [discriminate|].
    intros service method sig cause [= ->] Hsig Hcause. cbn [fst].
    unfold deserialize_rpc_arguments, deserialize_arguments. rewrite Hsig, Hcause.
    eexists. split; [reflexivity|]. split; reflexivity.
  - split; [|discriminate]. now intros e [= <-].
Qed.

Lemma dispatch_to_local_service_refusals_witness :
  (exists e,
      @dispatch_to_local_service Sample.strict (Sample.answering VNone) sample_invoke "user" "get_user"
        [] region_silo = (Raise e, region_silo)
      /\ exc_cls e = RpcResolutionException)
  /\ (exists e,
         @dispatch_to_local_service Sample.strict (Sample.answering VNone) sample_invoke "organization" "count_members"
           [("organization_id", VStr "one")] region_silo = (Raise e, region_silo)
         /\ exc_cls e = RpcArgumentException).
Proof.
  split.
  - destruct (@dispatch_to_local_service_refusals Sample.strict (Sample.answering VNone)
                sample_invoke
                "user" "get_user" [] region_silo) as [Hlookup _].
    eexists. split; [apply Hlookup; vm_compute; reflexivity | reflexivity].
  - destruct (@dispatch_to_local_service_refusals Sample.strict (Sample.answering VNone)
                sample_invoke
                "organization" "count_members" [("organization_id", VStr "one")]
                region_silo) as [_ Hargs].
    destruct (fst (@_look_up_service_method Sample.strict (Sample.answering VNone) "organization" "count_members"
                     region_silo)) as [[service method]|] eqn:Efound;
      [|vm_compute in Efound; discriminate].
    assert (Hsig : exists sig, signatures service !! "count_members"%string = Some sig
                     /\ exists cause,
                          @model_validate Sample.strict (_parameter_model sig)
                            [("organization_id", VStr "one")] = Raise cause).
    { vm_compute in Efound. injection Efound as <- _.
      eexists. split; [vm_compute; reflexivity|]. eexists. vm_compute. reflexivity. }
    destruct Hsig as (sig & Hsig & cause & Hcause).
    destruct (Hargs service method sig cause eq_refl Hsig Hcause) as (e & He & Hcls & _).
    exists e. split; [exact He | exact Hcls].
Defined.

(** ** From the caller to the local method and back *)

Section EndToEnd.

Context `{Pydantic} `{Process}.

Lemma serialize_arguments_checked sig args :
  check_arguments (_parameter_model sig) args = true ->
  serialize_arguments sig args
  = Ok (model_dict (VModel (model_name (_parameter_model sig))
                      (complete_with_defaults (model_fields (_parameter_model sig)) args))).
Proof.
  intros Hargs. unfold check_arguments in Hargs. apply andb_true_iff in Hargs as [Hfields _].
  unfold serialize_arguments. now rewrite (model_validate_arguments _ _ Hfields).
Qed.

Lemma deserialize_serialized sig args :
  check_schema (_parameter_model sig) = true ->
  check_arguments (_parameter_model sig) args = true ->
  deserialize_arguments sig
    (model_dict (VModel (model_name (_parameter_model sig))
                   (complete_with_defaults (model_fields (_parameter_model sig)) args)))
  = Ok (VModel (model_name (_parameter_model sig))
          (complete_with_defaults (model_fields (_parameter_model sig)) args)).
Proof.
  intros Hschema Hargs. unfold check_arguments in Hargs.
  apply andb_true_iff in Hargs as [Hfields _].
  unfold deserialize_arguments. now rewrite (model_validate_dict _ _ Hschema Hfields).
Qed.

(** The receiving side calls the method with the caller's arguments,
    completed with the defaults. *)
Lemma local_dispatch_delivers
    (invoke : Attribute -> list (string * value) -> M value)
    (service_name method_name : string) (args serial : ArgumentDict) (w : World)
    (service : DelegatingRpcService) (method : Attribute) (sig : RpcMethodSignature) :
  fst (_look_up_service_method service_name method_name w) = Ok (service, method) ->
  signatures service !! method_name = Some sig ->
  check_schema (_parameter_model sig) = true ->
  check_arguments (_parameter_model sig) args = true ->
  serialize_arguments sig args = Ok serial ->
  dispatch_to_local_service invoke service_name method_name serial w
  = bind (invoke method (complete_with_defaults (model_fields (_parameter_model sig)) args))
      (fun result => ret (VDict [("meta", VDict []); ("value", result_to_dict result)])) w.
Proof.
  intros Hlookup Hsig Hschema Hargs Hserial.
  rewrite (serialize_arguments_checked _ _ Hargs) in Hserial. injection Hserial as <-.
  pose proof (look_up_service_method_world service_name method_name w) as Hw.
  unfold dispatch_to_local_service, bind at 1 2, lift.
  destruct (_look_up_service_method service_name method_name w) as [[found|e0] w1];
    cbn in Hw, Hlookup; subst w1; [|discriminate].
  injection Hlookup as ->. cbn [fst snd].
  unfold deserialize_rpc_arguments. rewrite Hsig.
  rewrite (deserialize_serialized _ _ Hschema Hargs). reflexivity.
Qed.

Lemma look_up_service_method_transport (service_name method_name : string)
    (request : HttpRequest) (w : World) :
  fst (_look_up_service_method service_name method_name (with_transport_call request w))
  = fst (_look_up_service_method service_name method_name w).
Proof.
  unfold _look_up_service_method, facade_getattr, get_current_mode, bind, lift, ret.
  cbn [with_transport_call _global_service_registry current_mode].
  destruct (_global_service_registry w !! service_name) as [service|]; [|reflexivity].
  destruct (facade_attribute service method_name); [reflexivity|].
  destruct (let? impl := construct _ _ in instance_getattr impl method_name) as [m|e];
    [reflexivity|]. now destruct (bool_decide _).
Qed.

End EndToEnd.

(** X18. When the serialized arguments of a caller reach
    [dispatch_to_local_service], the method found is called with the caller's
    arguments completed with the declared defaults of the omitted parameters,
    and its result is returned in the envelope. *)
Theorem dispatch_to_local_service_arguments `{Pydantic} `{Process}
    (invoke : Attribute -> list (string * value) -> M value)
    (service_name method_name : string) (args serial : ArgumentDict) (w : World)
    (service : DelegatingRpcService) (method : Attribute) (sig : RpcMethodSignature) :
  fst (_look_up_service_method service_name method_name w) = Ok (service, method) ->
  signatures service !! method_name = Some sig ->
  check_schema (_parameter_model sig) = true ->
  check_arguments (_parameter_model sig) args = true ->
  serialize_arguments sig args = Ok serial ->
  dispatch_to_local_service invoke service_name method_name serial w
  = bind (invoke method (complete_with_defaults (model_fields (_parameter_model sig)) args))
      (fun result => ret (VDict [("meta", VDict []); ("value", result_to_dict result)])) w.
Proof. exact (local_dispatch_delivers invoke service_name method_name args serial w
                service method sig). Qed.

Lemma dispatch_to_local_service_arguments_witness :
  exists method,
    @dispatch_to_local_service Sample.strict (Sample.answering VNone) sample_invoke "organization"
      "update_organization"
      [("organization_id", VInt 1);
       ("organization", VDict [("id", VInt 1); ("slug", VStr "acme");
                               ("flags", VList [VStr "early-adopter"])]);
       ("tags", VList [VStr "a"; VNone]); ("limit", VInt 10)]
      region_silo
    = bind (sample_invoke method
              [("organization_id", VInt 1); ("organization", Sample.organization);
               ("tags", VList [VStr "a"; VNone]); ("limit", VInt 10)])
        (fun result => ret (VDict [("meta", VDict []); ("value", result_to_dict result)]))
        region_silo.
Proof.
  destruct (fst (@_look_up_service_method Sample.strict (Sample.answering VNone) "organization" "update_organization"
                   region_silo)) as [[service method]|] eqn:Efound;
    [|vm_compute in Efound; discriminate].
  assert (Hsig : exists sig,
             signatures service !! "update_organization"%string = Some sig
             /\ check_schema (_parameter_model sig) = true
             /\ check_arguments (_parameter_model sig)
                  Sample.update_arguments_without_limit = true
             /\ @serialize_arguments Sample.strict sig Sample.update_arguments_without_limit
                = Ok [("organization_id", VInt 1);
                      ("organization", VDict [("id", VInt 1); ("slug", VStr "acme");
                                              ("flags", VList [VStr "early-adopter"])]);
                      ("tags", VList [VStr "a"; VNone]); ("limit", VInt 10)]
             /\ complete_with_defaults (model_fields (_parameter_model sig))
                  Sample.update_arguments_without_limit
                = [("organization_id", VInt 1); ("organization", Sample.organization);
                   ("tags", VList [VStr "a"; VNone]); ("limit", VInt 10)]).
  { vm_compute in Efound. injection Efound as <- _.
    eexists. split; [vm_compute; reflexivity|].
    repeat split; vm_compute; reflexivity. }
  destruct Hsig as (sig & Hsig & Hschema & Hargs & Hserial & Hcomplete).
  exists method. rewrite <- Hcomplete.
  exact (@dispatch_to_local_service_arguments Sample.strict (Sample.answering VNone)
           sample_invoke _ _ _ _ _ _ _ _
           Efound Hsig Hschema Hargs Hserial).
Defined.

(** X19. A remote call returns what the local method returns.  For a
    method of a region service whose resolver finds a region with an address,
    called with arguments that satisfy the schema, in a process that has a
    shared secret and finds the service in its registry: if the peer answers
    with status 200 and the envelope of its [dispatch_to_local_service], and
    the method called there with the completed arguments returns a value of
    the declared return type, then the generated remote method returns that
    value, after exactly one request, sent to the address of the region. *)
Theorem remote_call_returns_local_result `{Pydantic} `{Process}
    (invoke : Attribute -> list (string * value) -> M value)
    (cls : RpcService) (key : string) (method : Method) (sig : RpcMethodSignature)
    (strategy : RegionResolutionStrategy) (target : Region) (t : type_token)
    (kwargs serial : ArgumentDict) (w peer peer' : World)
    (service peer_service : DelegatingRpcService) (found peer_method : Attribute)
    (result : value) :
  cls_local_mode (service_cls cls) = Some REGION ->
  cls_key (service_cls cls) = Some key ->
  RpcMethodSignature_init (service_cls cls) method = Ok sig ->
  return_annotation method = AnnType t ->
  region_resolution method = Some strategy ->
  resolve strategy kwargs = Ok (Some target) ->
  check_schema (_parameter_model sig) = true ->
  check_arguments (_parameter_model sig) kwargs = true ->
  serialize_arguments sig kwargs = Ok serial ->
  RPC_SHARED_SECRET settings <> [] ->
  region_address target <> ""%string ->
  fst (_look_up_service_method key (dunder_name method) w) = Ok (service, found) ->
  signatures service !! dunder_name method = Some sig ->
  (forall request,
     post request
     = Ok {| status_code := 200;
             response_json :=
               fst (dispatch_to_local_service invoke key (dunder_name method) serial peer) |}) ->
  fst (_look_up_service_method key (dunder_name method) peer) = Ok (peer_service, peer_method) ->
  signatures peer_service !! dunder_name method = Some sig ->
  invoke peer_method (complete_with_defaults (model_fields (_parameter_model sig)) kwargs) peer
  = (Ok result, peer') ->
  check_type t result = true ->
  exists request,
    remote_method cls (dunder_name method) sig false kwargs w
    = (Ok result, with_transport_call request w)
    /\ req_region request = Some target
    /\ req_url request = region_address target +:+ reverse key (dunder_name method).
Proof.
  intros Hregion Hkey Hinit Hret Hstrategy Hresolve Hschema Hargs Hserial Hsecrets Haddress
    Hlookup Hsig Hpost Hpeer Hpeersig Hinvoke Hresult.
  destruct (signature_init_fields _ _ _ Hinit) as (_ & Hm & Hrr & _).
  destruct (Hrr Hregion) as (strategy' & Hs1 & Hs2).
  rewrite Hstrategy in Hs1. injection Hs1 as <-.
  assert (Hres : resolve_to_region sig kwargs
                 = Ok {| region := Some target; is_early_halt := false |}).
  { unfold resolve_to_region. rewrite Hs2, Hresolve. reflexivity. }
  assert (Henvelope : fst (dispatch_to_local_service invoke key (dunder_name method) serial peer)
                      = Ok (VDict [("meta", VDict []); ("value", result_to_dict result)])).
  { rewrite (local_dispatch_delivers invoke _ _ kwargs serial peer peer_service peer_method sig
               Hpeer Hpeersig Hschema Hargs Hserial).
    unfold bind. now rewrite Hinvoke. }
  destruct (signature_return_model _ _ _ _ Hinit Hret) as (name & Hrm).
  pose proof (deserialize_return_value_typed sig name t result Hrm Hresult) as Hback.
  unfold remote_method, dispatch_remote_call, dispatch, _send_to_remote_silo.
  unfold bind, lift, ret, get_key.
  rewrite (bool_decide_eq_true_2 _ Hregion), Hres. cbn [is_early_halt region].
  rewrite Hserial, Hkey.
  destruct (generate_request_signature _ _ _) as [tag|e] eqn:Etag.
  2:{ unfold generate_request_signature in Etag.
      destruct (RPC_SHARED_SECRET settings); [congruence | discriminate]. }
  unfold _fire_request, bind, lift, send, address. cbn [call_region].
  rewrite (proj2 (String.eqb_neq _ _) Haddress).
  rewrite Hpost. cbn [status_code response_json Z.eqb Pos.eqb call_service_name
                      call_method_name].
  rewrite Henvelope. cbn [subscript_value dict_get String.eqb Ascii.eqb Bool.eqb].
  match goal with
  | |- context [_look_up_service_method ?s ?m
                  {| _global_service_registry := _;
                     current_mode := _;
                     transport_calls := transport_calls w ++ [?r] |}] =>
      pose proof (look_up_service_method_world s m (with_transport_call r w)) as Hw1;
      pose proof (look_up_service_method_transport s m r w) as Hf1;
      unfold with_transport_call in Hw1, Hf1;
      destruct (_look_up_service_method s m
                  {| _global_service_registry := _global_service_registry w;
                     current_mode := current_mode w;
                     transport_calls := transport_calls w ++ [r] |}) as [[found1|e1] w2]
  end;
    cbn [fst snd] in Hw1, Hf1; rewrite Hlookup in Hf1; [|discriminate].
  injection Hf1 as ->. subst w2. cbn [fst].
  rewrite result_to_dict_to_dict in *.
  assert (Hvalue : match to_dict result with
                   | VNone => ret VNone
                   | _ => lift (deserialize_rpc_response service (dunder_name method)
                                  (to_dict result))
                   end = (fun w0 => (Ok result, w0))).
  { unfold deserialize_rpc_response. rewrite Hsig, Hback.
    destruct (to_dict result) eqn:Ed; try reflexivity.
    apply to_dict_none in Ed. now subst result. }
  unfold ret, lift in Hvalue. rewrite Hvalue.
  eexists. split; [reflexivity|]. split; reflexivity.
Qed.

Lemma remote_call_returns_local_result_witness :
  let P := Sample.answering (VInt 7) in
  let w := Sample.delegated P in
  exists sig request,
    _signatures Sample.organization_service !! "count_members"%string = Some sig
    /\ @remote_method Sample.strict P Sample.organization_service "count_members" sig false
         [("organization_id", VInt 1)] w
       = (Ok (VInt 7), with_transport_call request w)
    /\ req_url request
       = "http://us.internal/api/0/internal/rpc/organization/count_members/"%string.
Proof.
  intros P w.
  destruct (@RpcMethodSignature_init Sample.strict Sample.OrganizationService
              Sample.count_members) as [sig|] eqn:Einit;
    [|vm_compute in Einit; discriminate].
  destruct (fst (@_look_up_service_method Sample.strict P "organization" "count_members" w))
    as [[service found]|] eqn:Ecaller; [|vm_compute in Ecaller; discriminate].
  destruct (fst (@_look_up_service_method Sample.strict P "organization" "count_members"
                   region_silo))
    as [[peer_service peer_method]|] eqn:Epeer; [|vm_compute in Epeer; discriminate].
  assert (Hfacts :
            signatures service !! "count_members"%string = Some sig
            /\ signatures peer_service !! "count_members"%string = Some sig
            /\ _signatures Sample.organization_service !! "count_members"%string = Some sig
            /\ check_schema (_parameter_model sig) = true
            /\ check_arguments (_parameter_model sig) [("organization_id", VInt 1)] = true
            /\ @serialize_arguments Sample.strict sig [("organization_id", VInt 1)]
               = Ok [("organization_id", VInt 1)]
            /\ sample_invoke peer_method
                 (complete_with_defaults (model_fields (_parameter_model sig))
                    [("organization_id", VInt 1)]) region_silo
               = (Ok (VInt 7), region_silo)).
  { vm_compute in Einit, Ecaller, Epeer.
    injection Einit as <-. injection Ecaller as <- _. injection Epeer as <- <-.
    repeat split; vm_compute; reflexivity. }
  destruct Hfacts as (Hsig & Hpeersig & Htable & Hschema & Hargs & Hserial & Hinvoke).
  destruct (@remote_call_returns_local_result Sample.strict P sample_invoke
              Sample.organization_service "organization" Sample.count_members sig
              Sample.by_organization_id Sample.us TInt
              [("organization_id", VInt 1)] [("organization_id", VInt 1)]
              w region_silo region_silo service peer_service found peer_method (VInt 7))
    as (request & Hcall & _ & Hurl).
  - reflexivity.
  - reflexivity.
  - exact Einit.
  - reflexivity.
  - reflexivity.
  - reflexivity.
  - exact Hschema.
  - exact Hargs.
  - exact Hserial.
  - discriminate.
  - discriminate.
  - exact Ecaller.
  - exact Hsig.
  - intros request. vm_compute. reflexivity.
  - exact Epeer.
  - exact Hpeersig.
  - exact Hinvoke.
  - reflexivity.
  - exists sig, request. split; [exact Htable|]. split; [exact Hcall | exact Hurl].
Defined.

Section FullOverride.

Context `{Pydantic}.

Lemma rpc_overrides_loop_none_generated cls use_test_client nonlocal_class methods acc :
  (forall m, m ∈ methods ->
     exists nm, getattr nonlocal_class (dunder_name m) = Ok nm
                /\ isabstractmethod nm = false) ->
  rpc_overrides_loop cls use_test_client (Some nonlocal_class) methods acc = Ok acc.
Proof.
  induction methods as [|m methods IH]; intros Hall; [reflexivity|].
  cbn [rpc_overrides_loop should_generate_remote_method].
  destruct (Hall m) as (nm & -> & Habs); [left|].
  cbn [rbind]. unfold _is_abstract_method. rewrite Habs.
  apply IH. intros m' Hin. apply Hall. now right.
Qed.

End FullOverride.

(** X20. An override that implements every abstract RPC method of the
    base class, and has no abstract method itself, is returned as it is by
    [_create_remote_implementation]: no delegate class is generated and no
    method is replaced by a remote call. *)
Theorem full_override_is_kept `{Pydantic}
    (cls : RpcService) (use_test_client : bool) (nonlocal_class : Class) :
  (forall m, m ∈ _get_abstract_rpc_methods (service_cls cls) ->
     exists nm, getattr nonlocal_class (dunder_name m) = Ok nm
                /\ isabstractmethod nm = false) ->
  forallb (fun a => negb (isabstractmethod (snd a))) (cls_attrs nonlocal_class) = true ->
  _create_remote_implementation cls use_test_client (Some nonlocal_class) = Ok nonlocal_class.
Proof.
  intros Hall Hconcrete. unfold _create_remote_implementation, rpc_overrides.
  rewrite (rpc_overrides_loop_none_generated _ _ _ _ [] Hall). cbn [rbind].
  unfold instantiate. now rewrite Hconcrete.
Qed.

Lemma full_override_is_kept_witness :
  @_create_remote_implementation Sample.strict Sample.organization_service false
    (Some Sample.DatabaseBackedOrganizationService)
  = Ok Sample.DatabaseBackedOrganizationService.
Proof.
  apply (@full_override_is_kept Sample.strict).
  - intros m Hm. cbn in Hm.
    repeat (apply elem_of_cons in Hm as [->|Hm];
            [eexists; split; [reflexivity | reflexivity]|]).
    inversion Hm.
  - reflexivity.
Defined.
